(** * cfssl-webui: the certificate service of [backend/main.py]

    A shallow embedding of the FastAPI service and the properties of its
    specification.

    Conventions of the model.
    - A Python [str] is a [string]; a character stands for the code point
      of the same number (0..255).  On that alphabet [str.lower],
      [json.dumps], [json.loads], [str.encode("utf-8")] and [str(int)] are
      written out below as CPython computes them.
    - A Python [int] is a [Z].
    - A raised exception is the [Raise] branch of [result]; an
      [HTTPException] carries its status code, any other exception is
      [Unhandled] (FastAPI answers it with status 500).
    - The [certificates] table is a finite map from the primary key [id]
      to the remaining columns, together with the AUTOINCREMENT counter of
      [sqlite_sequence].
    - The CFSSL endpoint is a function from the request that is posted to
      the outcome of [requests.post]; the requests that were posted are
      logged in the world. *)

From Stdlib Require Import ZArith NArith String Ascii List Bool Lia.
From stdpp Require Import base option list gmap strings pretty sorting.

Local Open Scope Z_scope.

(** ** Exceptions *)

(** The [detail] of an [HTTPException].  The two messages of
    [resolve_validity_days] are Chinese text and are kept as tags. *)
Inductive CfsslError := cfssl_error (code : Z) (message : string).

Inductive Detail :=
| Text (s : string)
| CustomDaysRequired       (* "请提供大于 0 的自定义有效期天数" *)
| InvalidValidityOption    (* "无效的有效期选项" *)
| Errors (errs : list CfsslError).

Inductive PyError :=
| OverflowError
| AttributeError
| ValueError.

Inductive Exception :=
| HTTPException (status_code : Z) (detail : Detail)
| Unhandled (e : PyError).

Inductive result (A : Type) :=
| Ok (a : A)
| Raise (e : Exception).
Arguments Ok {A} a.
Arguments Raise {A} e.

#[global] Instance result_ret : MRet result := @Ok.
#[global] Instance result_bind : MBind result := fun A B f m =>
  match m with
  | Ok a => f a
  | Raise e => Raise e
  end.

(** The status code a client sees. *)
Definition http_status (e : Exception) : Z :=
  match e with
  | HTTPException c _ => c
  | Unhandled _ => 500
  end.

(** ** Python built-ins *)

(** [x or default] on strings, and [bool(x)] on optional values. *)
Definition str_or (s default : string) : string :=
  if decide (s = "") then default else s.

Definition truthy_str (o : option string) : bool :=
  match o with
  | Some s => bool_decide (s ≠ "")
  | None => false
  end.

Definition truthy_int (o : option Z) : bool :=
  match o with
  | Some n => bool_decide (n ≠ 0)
  | None => false
  end.

(** [str.lower] on the code points 0..255: the letters A-Z and the
    Latin-1 capitals U+00C0..U+00DE (U+00D7 is the multiplication sign)
    move up by 32, everything else is unchanged. *)
Definition lower_char (c : ascii) : ascii :=
  let n := N_of_ascii c in
  if ((65 <=? n) && (n <=? 90))%N
     || ((192 <=? n) && (n <=? 222) && negb (n =? 215))%N
  then ascii_of_N (n + 32)
  else c.

Fixpoint lower (s : string) : string :=
  match s with
  | EmptyString => EmptyString
  | String c s' => String (lower_char c) (lower s')
  end.

(** [s.replace(old, new)] for single characters. *)
Fixpoint replace_char (old new : ascii) (s : string) : string :=
  match s with
  | EmptyString => EmptyString
  | String c s' =>
      String (if Ascii.eqb c old then new else c) (replace_char old new s')
  end.

(** [str(n)] is [pretty n]: decimal digits, with a leading minus sign. *)
Definition str_of_int (n : Z) : string := pretty n.

(** [sep.join(items)]. *)
Fixpoint join (sep : string) (items : list string) : string :=
  match items with
  | [] => ""
  | x :: xs =>
      match xs with
      | [] => x
      | _ :: _ => x +:+ sep +:+ join sep xs
      end
  end.

(** [s.encode("utf-8")]: one byte below U+0080, two bytes up to U+00FF. *)
Definition encode_utf8_char (c : ascii) : list Byte.byte :=
  let n := N_of_ascii c in
  if (n <? 128)%N then [byte_of_ascii c]
  else [byte_of_ascii (ascii_of_N (N.lor 192 (N.shiftr n 6)));
        byte_of_ascii (ascii_of_N (N.lor 128 (N.land n 63)))].

Fixpoint encode_utf8 (s : string) : list Byte.byte :=
  match s with
  | EmptyString => []
  | String c s' => encode_utf8_char c ++ encode_utf8 s'
  end.

(** ** The [json] module, on lists of strings

    [dumps] is the encoder with its defaults ([ensure_ascii=True],
    separators [", "]); [loads] is the decoder, read as an automaton over
    the text.  [loads] answers [None] where the decoder raises, where the
    text is valid JSON of another shape than an array of strings, and
    where an escape names a code point above U+00FF. *)
Module json.

Definition quote : ascii := "034"%char.
Definition backslash : ascii := "092"%char.

Definition hex_digit (n : N) : ascii :=
  if (n <? 10)%N then ascii_of_N (48 + n) else ascii_of_N (87 + n).

(** ['\\u{0:04x}'.format(n)] *)
Definition u_escape (n : N) : string :=
  String backslash (String "u"
    (String (hex_digit (n / 4096)) (String (hex_digit ((n / 256) mod 16))
      (String (hex_digit ((n / 16) mod 16)) (String (hex_digit (n mod 16))
        ""))))).

(** [ESCAPE_ASCII] and [ESCAPE_DCT] of [py_encode_basestring_ascii]. *)
Definition escape_char (c : ascii) : string :=
  let n := N_of_ascii c in
  if (n =? 34)%N then String backslash (String quote "")
  else if (n =? 92)%N then String backslash (String backslash "")
  else if (n =? 10)%N then String backslash "n"
  else if (n =? 13)%N then String backslash "r"
  else if (n =? 9)%N then String backslash "t"
  else if (n =? 8)%N then String backslash "b"
  else if (n =? 12)%N then String backslash "f"
  else if ((32 <=? n) && (n <=? 126))%N then String c ""
  else u_escape n.

Fixpoint escape (s : string) : string :=
  match s with
  | EmptyString => ""
  | String c s' => escape_char c +:+ escape s'
  end.

Definition encode_basestring_ascii (s : string) : string :=
  String quote (escape s +:+ String quote "").

Definition dumps (items : list string) : string :=
  "[" +:+ join ", " (encode_basestring_ascii <$> items) +:+ "]".

(** The decoder: where the scanner stands in the text. *)
Inductive state :=
| Begin                                        (* before the value *)
| Open                                         (* after the bracket *)
| InString (items : list string) (cur : string)
| Escaped (items : list string) (cur : string) (* after a backslash *)
| Hex (items : list string) (cur : string) (k : nat) (v : N)
| AfterValue (items : list string)
| AfterComma (items : list string)
| End (items : list string)
| Fail.

Definition whitespace (c : ascii) : bool :=
  let n := N_of_ascii c in
  ((n =? 32) || (n =? 9) || (n =? 10) || (n =? 13))%N.

Definition hex_value (c : ascii) : option N :=
  let n := N_of_ascii c in
  if ((48 <=? n) && (n <=? 57))%N then Some (n - 48)%N
  else if ((97 <=? n) && (n <=? 102))%N then Some (n - 87)%N
  else if ((65 <=? n) && (n <=? 70))%N then Some (n - 55)%N
  else None.

Definition snoc (s : string) (c : ascii) : string := s +:+ String c "".

(** [BACKSLASH] of the decoder. *)
Definition unescape (c : ascii) : option ascii :=
  let n := N_of_ascii c in
  if (n =? 34)%N then Some quote
  else if (n =? 92)%N then Some backslash
  else if (n =? 47)%N then Some "/"%char
  else if (n =? 98)%N then Some (ascii_of_N 8)
  else if (n =? 102)%N then Some (ascii_of_N 12)
  else if (n =? 110)%N then Some (ascii_of_N 10)
  else if (n =? 114)%N then Some (ascii_of_N 13)
  else if (n =? 116)%N then Some (ascii_of_N 9)
  else None.

Definition step (st : state) (c : ascii) : state :=
  let n := N_of_ascii c in
  match st with
  | Begin =>
      if whitespace c then Begin
      else if (n =? 91)%N then Open else Fail
  | Open =>
      if whitespace c then Open
      else if (n =? 93)%N then End []
      else if (n =? 34)%N then InString [] ""
      else Fail
  | InString items cur =>
      if (n =? 34)%N then AfterValue (items ++ [cur])
      else if (n =? 92)%N then Escaped items cur
      else if (n <=? 31)%N then Fail       (* strict: control character *)
      else InString items (snoc cur c)
  | Escaped items cur =>
      if (n =? 117)%N then Hex items cur 0 0
      else match unescape c with
           | Some c' => InString items (snoc cur c')
           | None => Fail
           end
  | Hex items cur k v =>
      match hex_value c with
      | Some d =>
          let v' := (16 * v + d)%N in
          match k with
          | 3%nat =>
              if (v' <? 256)%N then InString items (snoc cur (ascii_of_N v'))
              else Fail              (* a code point above U+00FF *)
          | _ => Hex items cur (S k) v'
          end
      | None => Fail
      end
  | AfterValue items =>
      if whitespace c then AfterValue items
      else if (n =? 44)%N then AfterComma items
      else if (n =? 93)%N then End items
      else Fail
  | AfterComma items =>
      if whitespace c then AfterComma items
      else if (n =? 34)%N then InString items ""
      else Fail
  | End items => if whitespace c then End items else Fail
  | Fail => Fail
  end.

Fixpoint run (st : state) (text : string) : state :=
  match text with
  | EmptyString => st
  | String c text' => run (step st c) text'
  end.

Definition loads (text : string) : option (list string) :=
  match run Begin text with
  | End items => Some items
  | _ => None
  end.

End json.

(** ** Validity resolver *)

Definition VALIDITY_OPTIONS_DAYS : gmap string Z :=
  {[ "1y" := 365; "3y" := 365 * 3; "5y" := 365 * 5; "10y" := 365 * 10 ]}.

(** The presets with their numbers of days, written out. *)
Definition preset_days : list (string * Z) :=
  [("1y", 365); ("3y", 1095); ("5y", 1825); ("10y", 3650)].

(** The request body.  The constraint [ge=1] on [validity_days] is checked
    by pydantic before a handler runs; the functions below are modelled on
    every value of the field. *)
Module CertCreate.
Record t := {
  cn : string;
  sans : list string;
  profile : option string;
  country : option string;
  organization : option string;
  organizational_unit : option string;
  locality : option string;
  province : option string;
  key_algo : string;
  key_size : Z;
  validity_option : string;
  validity_days : option Z;
}.
End CertCreate.

(** [not payload.validity_days] holds for [None] and for 0; the comparison
    is evaluated on an integer only. *)
Definition resolve_validity_days (payload : CertCreate.t) : result Z :=
  let option := lower (str_or payload.(CertCreate.validity_option) "1y") in
  match VALIDITY_OPTIONS_DAYS !! option with
  | Some days => Ok days
  | None =>
      if decide (option = "custom") then
        match payload.(CertCreate.validity_days) with
        | Some d =>
            if negb (truthy_int (Some d)) || (d <=? 0)%Z
            then Raise (HTTPException 400 CustomDaysRequired)
            else Ok d
        | None => Raise (HTTPException 400 CustomDaysRequired)
        end
      else Raise (HTTPException 400 InvalidValidityOption)
  end.

(** ** [datetime]

    A naive [datetime] is its number of microseconds since
    0001-01-01T00:00:00; [datetime.max] is the last microsecond of the day
    of ordinal 3652059.  A text column that holds [t.isoformat()] is kept
    as the term [isoformat t], which [fromisoformat] reads back. *)
Definition datetime := Z.
Definition timedelta := Z.

Definition MAXORDINAL : Z := 3652059.
Definition day_us : Z := 86400 * 1000000.

(** [timedelta(days=n)] *)
Definition timedelta_days (n : Z) : result timedelta :=
  if Z.abs n <=? 999999999 then Ok (n * day_us)
  else Raise (Unhandled OverflowError).

(** [t + d] *)
Definition datetime_add (t : datetime) (d : timedelta) : result datetime :=
  let r := t + d in
  if (0 <=? r) && (r <? MAXORDINAL * day_us) then Ok r
  else Raise (Unhandled OverflowError).

(** [issued_at + timedelta(days=validity_days)] *)
Definition expiry (issued_at : datetime) (validity_days : Z)
    : result datetime :=
  d ← timedelta_days validity_days; datetime_add issued_at d.

Inductive isotext := isoformat (t : datetime).


(** ** The CFSSL endpoint *)

Record CsrKey := { algo : string; size_ : Z }.

(** The JSON object that is posted; a key that is not set is [None]. *)
Record Csr := {
  CN : string;
  hosts : list string;
  key : CsrKey;
  names : option (list (gmap string string));
}.

Record CfsslRequest := { request : Csr; request_profile : option string }.

(** A field of a JSON object that may be missing, [null] or set. *)
Inductive field (A : Type) :=
| Absent
| Null
| Value (a : A).
Arguments Absent {A}.
Arguments Null {A}.
Arguments Value {A} a.

(** The response body, by the schema of the CFSSL API; [dict.get] of a
    string field is [None] both for a missing key and for [null]. *)
Record CfsslResult := {
  certificate : option string;
  private_key : option string;
  serial_number : option string;
}.

Record CfsslBody := {
  success : option bool;
  errors : option (list CfsslError);
  result_ : field CfsslResult;
}.

(** [json_] is [None] where [response.json()] raises or answers a value
    that is not a JSON object, on which [body.get] raises. *)
Record HttpResponse := {
  status_code : Z;
  text : string;
  json_ : option CfsslBody;
}.

Inductive PostOutcome :=
| RequestException (exc : string)
| Response (response : HttpResponse).

(** ** The [certificates] table *)

Module CertRow.
Record t := {
  cn : string;
  sans : string;
  serial_number : option string;
  profile : option string;
  issued_at : isotext;
  expires_at : isotext;
  status : string;
  certificate_pem : string;
  private_key_pem : string;
  created_at : isotext;
  validity_days : option Z;
}.
End CertRow.

Record World := {
  certificates : gmap Z CertRow.t;
  sqlite_sequence : Z;
  posted : list CfsslRequest;
}.

(** [init_db] on a new database file. *)
Definition empty_world : World :=
  {| certificates := ∅; sqlite_sequence := 0; posted := [] |}.

(** The largest rowid that was ever in the table. *)
Definition max_rowid (w : World) : Z :=
  map_fold (λ id _ acc, Z.max id acc) w.(sqlite_sequence) w.(certificates).

(** Handlers run in a state and exception monad over the world. *)
Definition M (A : Type) : Type := World → result A * World.

#[global] Instance M_ret : MRet M := λ A a w, (Ok a, w).
#[global] Instance M_bind : MBind M := λ A B f m w,
  match m w with
  | (Ok a, w') => f a w'
  | (Raise e, w') => (Raise e, w')
  end.

Definition raise {A} (e : Exception) : M A := λ w, (Raise e, w).

Definition lift {A} (r : result A) : M A := λ w, (r, w).

(** [INSERT INTO certificates (...) VALUES (...)] and [cur.lastrowid]; the
    [with get_db()] block commits on exit. *)
Definition insert (row : CertRow.t) : M Z := λ w,
  let id := max_rowid w + 1 in
  (Ok id, {| certificates := <[id := row]> w.(certificates);
             sqlite_sequence := id;
             posted := w.(posted) |}).

(** [requests.post(CFSSL_ENDPOINT, json=cfssl_request, timeout=10)] *)
Definition requests_post (cfssl : CfsslRequest → PostOutcome)
    (cfssl_request : CfsslRequest) : M PostOutcome := λ w,
  (Ok (cfssl cfssl_request),
   {| certificates := w.(certificates);
      sqlite_sequence := w.(sqlite_sequence);
      posted := w.(posted) ++ [cfssl_request] |}).

(** [ORDER BY id DESC] *)
Definition id_desc (x y : Z * CertRow.t) : Prop := y.1 ≤ x.1.

#[global] Instance id_desc_dec x y : Decision (id_desc x y) :=
  Z_le_dec y.1 x.1.


(** ** Response models *)

Module CertOut.
Record t := {
  id : Z;
  cn : string;
  sans : list string;
  serial_number : option string;
  profile : option string;
  issued_at : datetime;
  expires_at : datetime;
  status : string;
  certificate_pem : string;
  has_private_key : bool;
  validity_days : option Z;
}.
End CertOut.

(** [class CertCreateResponse(CertOut)]: the fields of [CertOut] and the
    private key. *)
Module CertCreateResponse.
Record t := {
  base : CertOut.t;
  private_key_pem : string;
}.
End CertCreateResponse.

Record StreamingResponse := {
  body : list Byte.byte;
  media_type : string;
  content_disposition : string;
}.

(** ** [GET /certs] *)

(** A row of the [SELECT] of [list_certs]: the private key is not among
    the selected columns, [has_private_key] is computed by the query. *)
Module ListRow.
Record t := {
  id : Z;
  cn : string;
  sans : string;
  serial_number : option string;
  profile : option string;
  issued_at : isotext;
  expires_at : isotext;
  validity_days : option Z;
  status : string;
  certificate_pem : string;
  has_private_key : Z;
}.
End ListRow.





(** ** [POST /certs] *)

(** [payload.sans or [payload.cn]] *)
Definition sans_or_cn (payload : CertCreate.t) : list string :=
  match payload.(CertCreate.sans) with
  | [] => [payload.(CertCreate.cn)]
  | _ :: _ => payload.(CertCreate.sans)
  end.

(** [if value: entry[key] = value] *)
Definition set_if (k : string) (value : option string)
    (entry : gmap string string) : gmap string string :=
  match value with
  | Some v => if decide (v = "") then entry else <[k := v]> entry
  | None => entry
  end.

Definition build_cfssl_request (payload : CertCreate.t) : CfsslRequest :=
  let name_entry : gmap string string :=
    set_if "OU" payload.(CertCreate.organizational_unit)
      (set_if "O" payload.(CertCreate.organization)
        (set_if "L" payload.(CertCreate.locality)
          (set_if "ST" payload.(CertCreate.province)
            (set_if "C" payload.(CertCreate.country) ∅)))) in
  let names := if decide (name_entry = ∅) then [] else [name_entry] in
  {| request :=
       {| CN := payload.(CertCreate.cn);
          hosts := sans_or_cn payload;
          key := {| algo := payload.(CertCreate.key_algo);
                    size_ := payload.(CertCreate.key_size) |};
          names := match names with [] => None | _ :: _ => Some names end |};
     request_profile :=
       if truthy_str payload.(CertCreate.profile)
       then payload.(CertCreate.profile) else None |}.

(** The values bound to the [INSERT] statement. *)
Definition certificate_row (payload : CertCreate.t)
    (issued_at expires_at : datetime) (validity_days : Z)
    (certificate_pem private_key_pem : string)
    (serial_number : option string) : CertRow.t :=
  {| CertRow.cn := payload.(CertCreate.cn);
     CertRow.sans := json.dumps (sans_or_cn payload);
     CertRow.serial_number := serial_number;
     CertRow.profile := payload.(CertCreate.profile);
     CertRow.issued_at := isoformat issued_at;
     CertRow.expires_at := isoformat expires_at;
     CertRow.validity_days := Some validity_days;
     CertRow.status := "valid";
     CertRow.certificate_pem := certificate_pem;
     CertRow.private_key_pem := private_key_pem;
     CertRow.created_at := isoformat issued_at |}.

(** The [CertCreateResponse] that is returned. *)
Definition created_response (cert_id : Z) (payload : CertCreate.t)
    (issued_at expires_at : datetime) (validity_days : Z)
    (certificate_pem private_key_pem : string)
    (serial_number : option string) : CertCreateResponse.t :=
  {| CertCreateResponse.base :=
       {| CertOut.id := cert_id;
          CertOut.cn := payload.(CertCreate.cn);
          CertOut.sans := sans_or_cn payload;
          CertOut.serial_number := serial_number;
          CertOut.profile := payload.(CertCreate.profile);
          CertOut.issued_at := issued_at;
          CertOut.expires_at := expires_at;
          CertOut.status := "valid";
          CertOut.certificate_pem := certificate_pem;
          CertOut.has_private_key := true;
          CertOut.validity_days := Some validity_days |};
     CertCreateResponse.private_key_pem := private_key_pem |}.

(** [response.json()] *)
Definition response_json (response : HttpResponse) : result CfsslBody :=
  match response.(json_) with
  | Some body => Ok body
  | None => Raise (Unhandled ValueError)
  end.

(** [body.get("result", {})], on which [.get] is then called *)
Definition body_result (body : CfsslBody) : result CfsslResult :=
  match body.(result_) with
  | Value r => Ok r
  | Absent => Ok {| certificate := None; private_key := None;
                    serial_number := None |}
  | Null => Raise (Unhandled AttributeError)
  end.

Definition create_cert (cfssl : CfsslRequest → PostOutcome)
    (utcnow : datetime) (payload : CertCreate.t)
    : M CertCreateResponse.t :=
  let issued_at := utcnow in
  validity_days ← lift (resolve_validity_days payload);
  expires_at ← lift (expiry issued_at validity_days);
  let cfssl_request := build_cfssl_request payload in
  outcome ← requests_post cfssl cfssl_request;
  match outcome with
  | RequestException exc =>
      raise (HTTPException 502 (Text ("Failed to reach CFSSL: " +:+ exc)))
  | Response response =>
      if decide (response.(status_code) ≠ 200) then
        raise (HTTPException 502 (Text ("CFSSL error: " +:+ response.(text))))
      else
        body ← lift (response_json response);
        if negb (default false body.(success)) then
          raise (HTTPException 502
                   (match body.(errors) with
                    | Some errs => Errors errs
                    | None => Text "CFSSL request failed"
                    end))
        else
          result ← lift (body_result body);
          let serial_number := result.(serial_number) in
          match result.(certificate), result.(private_key) with
          | Some certificate_pem, Some private_key_pem =>
              if negb (truthy_str (Some certificate_pem))
                 || negb (truthy_str (Some private_key_pem)) then
                raise (HTTPException 500
                         (Text "CFSSL response missing certificate or key"))
              else
                cert_id ← insert
                  (certificate_row payload issued_at expires_at validity_days
                     certificate_pem private_key_pem serial_number);
                mret (created_response cert_id payload issued_at expires_at
                        validity_days certificate_pem private_key_pem
                        serial_number)
          | _, _ =>
              raise (HTTPException 500
                       (Text "CFSSL response missing certificate or key"))
          end
  end.

(** ** Downloads *)

Definition _get_certificate_row (cert_id : Z) (w : World) : result CertRow.t :=
  match w.(certificates) !! cert_id with
  | Some row => Ok row
  | None => Raise (HTTPException 404 (Text "Certificate not found"))
  end.

(** [f"cert_{cert_id}_{row['cn'].replace('.', '_')}"] with its extension *)
Definition download_filename (cert_id : Z) (cn ext : string) : string :=
  "cert_" +:+ str_of_int cert_id +:+ "_" +:+ replace_char "." "_" cn +:+ ext.

Definition newline : string := String (ascii_of_N 10) "".

Definition download_pem (cert_id : Z) (w : World) : result StreamingResponse :=
  row ← _get_certificate_row cert_id w;
  let bundle := row.(CertRow.certificate_pem) +:+ newline
                +:+ row.(CertRow.private_key_pem) +:+ newline in
  let filename := download_filename cert_id row.(CertRow.cn) ".pem" in
  mret {| body := encode_utf8 bundle;
          media_type := "application/x-pem-file";
          content_disposition := "attachment; filename=" +:+ filename |}.

(** The [cryptography] package: its types and functions are parameters;
    a loader or the serializer that raises answers [None]. *)
Inductive KeySerializationEncryption :=
| BestAvailableEncryption (password : list Byte.byte)
| NoEncryption.

(** [BestAvailableEncryption(password.encode("utf-8")) if password else
    NoEncryption()] *)
Definition encryption_for (password : option string)
    : KeySerializationEncryption :=
  if truthy_str password
  then BestAvailableEncryption (encode_utf8 (default "" password))
  else NoEncryption.

Section PKCS12.
Variables Certificate PrivateKey : Type.
Variable load_pem_x509_certificate : list Byte.byte → option Certificate.
Variable load_pem_private_key :
  list Byte.byte → option (list Byte.byte) → option PrivateKey.
Variable serialize_key_and_certificates :
  option (list Byte.byte) → PrivateKey → Certificate →
  option (list Certificate) → KeySerializationEncryption →
  option (list Byte.byte).

Definition library {A} (r : option A) : result A :=
  match r with
  | Some a => Ok a
  | None => Raise (Unhandled ValueError)
  end.

Definition download_p12 (cert_id : Z) (password : option string)
    (w : World) : result StreamingResponse :=
  row ← _get_certificate_row cert_id w;
  if negb (truthy_str (Some row.(CertRow.private_key_pem))) then
    Raise (HTTPException 404 (Text "Private key not available"))
  else
    certificate ← library (load_pem_x509_certificate
                             (encode_utf8 row.(CertRow.certificate_pem)));
    private_key ← library (load_pem_private_key
                             (encode_utf8 row.(CertRow.private_key_pem)) None);
    let encryption := encryption_for password in
    pkcs12_bytes ← library (serialize_key_and_certificates
                              (Some (encode_utf8 row.(CertRow.cn)))
                              private_key certificate None encryption);
    let filename := download_filename cert_id row.(CertRow.cn) ".p12" in
    mret {| body := pkcs12_bytes;
            media_type := "application/x-pkcs12";
            content_disposition := "attachment; filename=" +:+ filename |}.
End PKCS12.

(** ** Outcomes of the CA call and states of the store *)

(** The four ways in which the CA call fails. *)
Inductive ca_failure : PostOutcome → Prop :=
| transport_error exc :
    ca_failure (RequestException exc)
| status_not_200 response :
    response.(status_code) ≠ 200 →
    ca_failure (Response response)
| success_flag_false response body :
    response.(status_code) = 200 →
    response.(json_) = Some body →
    body.(success) ≠ Some true →
    ca_failure (Response response)
| fields_missing response body r :
    response.(status_code) = 200 →
    response.(json_) = Some body →
    body.(success) = Some true →
    body_result body = Ok r →
    truthy_str r.(certificate) = false ∨ truthy_str r.(private_key) = false →
    ca_failure (Response response).

(** The CA call succeeds: it answers a certificate and a private key. *)
Inductive ca_signed : PostOutcome → string → string → option string → Prop :=
| ca_signed_intro response body r certificate_pem private_key_pem :
    response.(status_code) = 200 →
    response.(json_) = Some body →
    body.(success) = Some true →
    body.(result_) = Value r →
    r.(certificate) = Some certificate_pem → certificate_pem ≠ "" →
    r.(private_key) = Some private_key_pem → private_key_pem ≠ "" →
    ca_signed (Response response) certificate_pem private_key_pem
      r.(serial_number).

Definition ca_success (outcome : PostOutcome) : Prop :=
  ∃ certificate_pem private_key_pem serial_number,
    ca_signed outcome certificate_pem private_key_pem serial_number.

(** A row as [create_cert] writes it. *)
Inductive service_row : CertRow.t → Prop :=
| service_row_intro payload issued_at expires_at validity_days
    certificate_pem private_key_pem serial_number :
    resolve_validity_days payload = Ok validity_days →
    expiry issued_at validity_days = Ok expires_at →
    certificate_pem ≠ "" → private_key_pem ≠ "" →
    service_row (certificate_row payload issued_at expires_at validity_days
                   certificate_pem private_key_pem serial_number).

(** The states of the store that the service produces. *)
Inductive reachable : World → Prop :=
| reachable_empty :
    reachable empty_world
| reachable_create cfssl utcnow payload w :
    reachable w →
    reachable (create_cert cfssl utcnow payload w).2.

(** The world after the request was posted. *)
Definition after_post (payload : CertCreate.t) (w : World) : World :=
  {| certificates := w.(certificates);
     sqlite_sequence := w.(sqlite_sequence);
     posted := w.(posted) ++ [build_cfssl_request payload] |}.

(** The world after the row was inserted. *)
Definition after_insert (payload : CertCreate.t) (row : CertRow.t) (w : World)
    : World :=
  {| certificates := <[max_rowid w + 1 := row]> w.(certificates);
     sqlite_sequence := max_rowid w + 1;
     posted := w.(posted) ++ [build_cfssl_request payload] |}.



(** ** Sample data *)

(** A row without a private key, as the query of [list_certs] and the
    check of [download_p12] provide for. *)
Definition keyless_row : CertRow.t :=
  {| CertRow.cn := "old.example.org";
     CertRow.sans := "[]";
     CertRow.serial_number := None;
     CertRow.profile := None;
     CertRow.issued_at := isoformat 0;
     CertRow.expires_at := isoformat day_us;
     CertRow.status := "valid";
     CertRow.certificate_pem := "CERT";
     CertRow.private_key_pem := "";
     CertRow.created_at := isoformat 0;
     CertRow.validity_days := None |}.

Definition keyless_world : World :=
  {| certificates := {[ 7 := keyless_row ]};
     sqlite_sequence := 7;
     posted := [] |}.


Definition sample_payload (validity_option : string)
    (validity_days : option Z) : CertCreate.t :=
  {| CertCreate.cn := "www.example.org";
     CertCreate.sans := [];
     CertCreate.profile := Some "server";
     CertCreate.country := Some "CN";
     CertCreate.organization := None;
     CertCreate.organizational_unit := None;
     CertCreate.locality := None;
     CertCreate.province := None;
     CertCreate.key_algo := "rsa";
     CertCreate.key_size := 2048;
     CertCreate.validity_option := validity_option;
     CertCreate.validity_days := validity_days |}.

Definition sample_result : CfsslResult :=
  {| certificate := Some "CERT";
     private_key := Some "KEY";
     serial_number := Some "42" |}.

Definition sample_body : CfsslBody :=
  {| success := Some true; errors := Some []; result_ := Value sample_result |}.

Definition sample_signed : HttpResponse :=
  {| status_code := 200; text := ""; json_ := Some sample_body |}.

Definition signing_ca (_ : CfsslRequest) : PostOutcome :=
  Response sample_signed.

Definition unreachable_ca (_ : CfsslRequest) : PostOutcome :=
  RequestException "connection refused".

(** 2024-01-01T00:00:00 *)
Definition sample_now : datetime := 738885 * day_us.

(** The store after two requests were served. *)
Definition sample_world : World :=
  (create_cert signing_ca sample_now
     (sample_payload "" None)
     (create_cert signing_ca sample_now
        (sample_payload "custom" (Some 90)) empty_world).2).2.

(** ** Start-up: [init_db] and the CORS origins *)

(** The database file: the [certificates] table, if it has one, with the
    names of its columns.  A row of a table without the column
    [validity_days] has [None] there, which is what [ADD COLUMN] gives to
    the rows that exist. *)
Record Table := {
  table_columns : list string;
  table_rows : gmap Z CertRow.t;
  table_sequence : Z;
}.

Definition Database : Type := option Table.

Inductive OperationalError :=
| duplicate_column_name (name : string)
| no_such_table (name : string).

(** The columns of the [CREATE TABLE] statement. *)
Definition created_columns : list string :=
  ["id"; "cn"; "sans"; "serial_number"; "profile"; "issued_at"; "expires_at";
   "status"; "certificate_pem"; "private_key_pem"; "created_at"].

(** [CREATE TABLE IF NOT EXISTS certificates (...)] *)
Definition create_table_if_not_exists (db : Database) : Database :=
  match db with
  | Some table => Some table
  | None => Some {| table_columns := created_columns;
                    table_rows := ∅;
                    table_sequence := 0 |}
  end.

(** [ALTER TABLE certificates ADD COLUMN name INTEGER] *)
Definition alter_table_add_column (name : string) (db : Database)
    : OperationalError + Database :=
  match db with
  | None => inl (no_such_table "certificates")
  | Some table =>
      if decide (name ∈ table.(table_columns))
      then inl (duplicate_column_name name)
      else inr (Some {| table_columns := table.(table_columns) ++ [name];
                        table_rows := table.(table_rows);
                        table_sequence := table.(table_sequence) |})
  end.

Definition init_db (db : Database) : Database :=
  let db := create_table_if_not_exists db in
  match alter_table_add_column "validity_days" db with
  | inr db' => db'
  | inl _ => db                     (* Column already exists *)
  end.

(** [s.split(sep)] for a separator of one character. *)
Fixpoint split (sep : ascii) (s : string) : list string :=
  match s with
  | EmptyString => [EmptyString]
  | String c s' =>
      if Ascii.eqb c sep then EmptyString :: split sep s'
      else match split sep s' with
           | x :: xs => String c x :: xs
           | [] => [String c EmptyString]
           end
  end.

(** [os.getenv("CORS_ALLOW_ORIGINS", "*").split(",")]; the argument is the
    value of the variable in the environment, if it is set. *)
Definition allow_origins (CORS_ALLOW_ORIGINS : option string) : list string :=
  split "," (default "*" CORS_ALLOW_ORIGINS).

(** [value if value else None]: an optional field as the request carries
    it. *)
Definition supplied (value : option string) : option string :=
  if truthy_str value then value else None.

(** The [name_entry] dictionary that [create_cert] fills. *)
Definition name_entry (payload : CertCreate.t) : gmap string string :=
  set_if "OU" payload.(CertCreate.organizational_unit)
    (set_if "O" payload.(CertCreate.organization)
      (set_if "L" payload.(CertCreate.locality)
        (set_if "ST" payload.(CertCreate.province)
          (set_if "C" payload.(CertCreate.country) ∅)))).

(** Every character of a text satisfies [P]. *)
Fixpoint all_chars (P : ascii → Prop) (s : string) : Prop :=
  match s with
  | EmptyString => True
  | String c s' => P c ∧ all_chars P s'
  end.

(** The printable characters of ASCII, from the space to the tilde. *)
Definition printable (c : ascii) : Prop :=
  (32 ≤ N_of_ascii c ≤ 126)%N.


(** * Properties *)

(** ** Validity resolver *)

Lemma str_or_nonempty (s default : string) : s ≠ "" → str_or s default = s.
Proof. intros Hs. unfold str_or. by destruct (decide (s = "")). Qed.

Lemma lower_nonempty (s : string) : lower s ≠ "" → s ≠ "".
Proof. by intros Hs ->. Qed.

(** The option that [resolve_validity_days] looks up, for an option whose
    lower-case form is a given non-empty text. *)
Lemma resolved_option (payload : CertCreate.t) (option : string) :
  lower payload.(CertCreate.validity_option) = option → option ≠ "" →
  lower (str_or payload.(CertCreate.validity_option) "1y") = option.
Proof.
  intros Hlow Hne. rewrite str_or_nonempty; [done|].
  apply lower_nonempty. by rewrite Hlow.
Qed.

(** C2. A preset option, in any letter case, resolves to its fixed number
    of days (365, 1095, 1825, 3650), whatever [validity_days] holds. *)
Theorem resolve_validity_days_preset
    (payload : CertCreate.t) (option : string) (days : Z) :
  (option, days) ∈ preset_days →
  lower payload.(CertCreate.validity_option) = option →
  resolve_validity_days payload = Ok days.
Proof.
  intros Hin Hlow. unfold resolve_validity_days.
  unfold preset_days in Hin.
  repeat (apply elem_of_cons in Hin as [[= -> ->]|Hin];
          [by rewrite (resolved_option payload _ Hlow)|]).
  by apply elem_of_nil in Hin.
Qed.

Lemma resolve_validity_days_preset_witness :
  resolve_validity_days (sample_payload "10Y" (Some 7)) = Ok 3650.
Proof.
  apply (resolve_validity_days_preset (sample_payload "10Y" (Some 7)) "10y").
  - compute_done.
  - reflexivity.
Defined.

(** ** [create_cert], step by step *)

Ltac unfold_M :=
  unfold mbind, M_bind, mret, M_ret, lift, raise, requests_post, insert;
  cbv beta iota.

Lemma create_cert_not_resolved cfssl utcnow payload w e :
  resolve_validity_days payload = Raise e →
  create_cert cfssl utcnow payload w = (Raise e, w).
Proof. intros H. unfold create_cert. unfold_M. by rewrite H. Qed.

Lemma create_cert_overflow cfssl utcnow payload w days e :
  resolve_validity_days payload = Ok days →
  expiry utcnow days = Raise e →
  create_cert cfssl utcnow payload w = (Raise e, w).
Proof.
  intros H1 H2. unfold create_cert. unfold_M. by rewrite H1, H2.
Qed.

(** Every run of [create_cert]: it raises and leaves the table as it was,
    or the CA signed and it returns the record of the one row that it
    inserted. *)
Lemma create_cert_inv cfssl utcnow payload w r w' :
  create_cert cfssl utcnow payload w = (r, w') →
  (∃ e, r = Raise e ∧ (w' = w ∨ w' = after_post payload w)) ∨
  (∃ days expires cert key serial,
      resolve_validity_days payload = Ok days ∧
      expiry utcnow days = Ok expires ∧
      ca_signed (cfssl (build_cfssl_request payload)) cert key serial ∧
      r = Ok (created_response (max_rowid w + 1) payload utcnow expires days
                cert key serial) ∧
      w' = after_insert payload
             (certificate_row payload utcnow expires days cert key serial) w).
Proof.
  unfold create_cert. unfold_M.
  destruct (resolve_validity_days payload) as [days|e] eqn:Hres;
    [|intros [= <- <-]; left; eauto].
  destruct (expiry utcnow days) as [expires|e] eqn:Hexp;
    [|intros [= <- <-]; left; eauto].
  cbn [certificates sqlite_sequence posted]. fold (after_post payload w).
  destruct (cfssl (build_cfssl_request payload)) as [exc|response];
    [intros [= <- <-]; left; eauto|].
  destruct (decide (status_code response ≠ 200)) as [|Hstatus];
    [intros [= <- <-]; left; eauto|].
  unfold response_json.
  destruct (json_ response) as [body|] eqn:Hjson;
    [|intros [= <- <-]; left; eauto].
  destruct (success body) as [[]|] eqn:Hsuccess; simpl;
    [|intros [= <- <-]; left; eauto..].
  unfold body_result.
  destruct (result_ body) as [| |res] eqn:Hresult; simpl;
    [intros [= <- <-]; left; eauto..|].
  destruct (certificate res) as [cert|] eqn:Hcert;
    [|intros [= <- <-]; left; eauto].
  destruct (private_key res) as [key|] eqn:Hkey;
    [|intros [= <- <-]; left; eauto].
  unfold truthy_str.
  destruct (bool_decide (cert ≠ "")) eqn:Hc;
    [|intros [= <- <-]; left; eauto].
  destruct (bool_decide (key ≠ "")) eqn:Hk;
    [|intros [= <- <-]; left; eauto].
  simpl. intros [= <- <-]. right.
  apply bool_decide_eq_true in Hc, Hk.
  exists days, expires, cert, key, (serial_number res).
  repeat split; try done.
  apply (ca_signed_intro response body res); try done.
  by destruct (decide (status_code response = 200)).
Qed.

(** The run in which the CA signs. *)
Lemma create_cert_signed cfssl utcnow payload w days expires cert key serial :
  resolve_validity_days payload = Ok days →
  expiry utcnow days = Ok expires →
  ca_signed (cfssl (build_cfssl_request payload)) cert key serial →
  create_cert cfssl utcnow payload w
  = (Ok (created_response (max_rowid w + 1) payload utcnow expires days
           cert key serial),
     after_insert payload
       (certificate_row payload utcnow expires days cert key serial) w).
Proof.
  intros Hres Hexp Hsigned. unfold create_cert. unfold_M.
  rewrite Hres, Hexp. cbn [certificates sqlite_sequence posted].
  inversion Hsigned as [response body r c k Hstatus Hjson Hsuccess Hresult
                          Hcert Hc Hkey Hk Ho]; subst.
  destruct (decide (status_code response ≠ 200)); [done|].
  unfold response_json, body_result.
  rewrite Hjson, Hsuccess. simpl. rewrite Hresult, Hcert, Hkey.
  unfold truthy_str. rewrite !bool_decide_eq_true_2 by done. simpl.
  reflexivity.
Qed.

(** The runs in which the CA call fails. *)
Lemma create_cert_ca_failure cfssl utcnow payload w days expires :
  resolve_validity_days payload = Ok days →
  expiry utcnow days = Ok expires →
  ca_failure (cfssl (build_cfssl_request payload)) →
  ∃ e, create_cert cfssl utcnow payload w = (Raise e, after_post payload w)
       ∧ (http_status e = 502 ∨ http_status e = 500).
Proof.
  intros Hres Hexp Hfail. unfold create_cert. unfold_M.
  rewrite Hres, Hexp. cbn [certificates sqlite_sequence posted].
  fold (after_post payload w).
  inversion Hfail as [exc Ho|response Hstatus Ho
                     |response body Hstatus Hjson Hsuccess Ho
                     |response body r Hstatus Hjson Hsuccess Hresult Hmiss Ho].
  - eauto.
  - destruct (decide (status_code response ≠ 200)); [eauto|done].
  - destruct (decide (status_code response ≠ 200)); [done|].
    unfold response_json. rewrite Hjson.
    destruct (success body) as [[]|]; [done|simpl; eauto..].
  - destruct (decide (status_code response ≠ 200)); [done|].
    unfold response_json. rewrite Hjson, Hsuccess. simpl. rewrite Hresult.
    destruct (certificate r) as [cert|], (private_key r) as [key|];
      [|eauto..].
    unfold truthy_str in *.
    destruct Hmiss as [->| ->]; simpl; [eauto|].
    rewrite orb_true_r. eauto.
Qed.

(** ** [json]: decoding what was encoded *)

Lemma string_app_cons (c : ascii) (s1 s2 : string) :
  String c s1 +:+ s2 = String c (s1 +:+ s2).
Proof. reflexivity. Qed.

Lemma string_app_assoc (s1 s2 s3 : string) :
  (s1 +:+ s2) +:+ s3 = s1 +:+ s2 +:+ s3.
Proof.
  induction s1 as [|c s1 IH]; [done|].
  rewrite !string_app_cons. by f_equal.
Qed.

Lemma string_app_empty_r (s : string) : s +:+ "" = s.
Proof.
  induction s as [|c s IH]; [done|].
  rewrite string_app_cons. by f_equal.
Qed.

Lemma run_app (st : json.state) (s1 s2 : string) :
  json.run st (s1 +:+ s2) = json.run (json.run st s1) s2.
Proof.
  revert st. induction s1 as [|c s1 IH]; intros st; [done|].
  rewrite string_app_cons. simpl. apply IH.
Qed.

(** One character: the scanner reads back what [escape_char] wrote. *)
Lemma run_escape_char (c : ascii) (items : list string) (cur : string) :
  json.run (json.InString items cur) (json.escape_char c)
  = json.InString items (json.snoc cur c).
Proof. destruct c as [[] [] [] [] [] [] [] []]; reflexivity. Qed.

Lemma run_escape (s : string) (items : list string) (cur : string) :
  json.run (json.InString items cur) (json.escape s)
  = json.InString items (cur +:+ s).
Proof.
  revert cur. induction s as [|c s IH]; intros cur; simpl.
  - by rewrite string_app_empty_r.
  - rewrite run_app, run_escape_char, IH. unfold json.snoc.
    by rewrite string_app_assoc.
Qed.

(** A string literal, read from the quote that opens it. *)
Lemma run_string (s : string) (items : list string) (st : json.state) :
  json.step st json.quote = json.InString items "" →
  json.run st (json.encode_basestring_ascii s)
  = json.AfterValue (items ++ [s]).
Proof.
  intros Hst. unfold json.encode_basestring_ascii. simpl. rewrite Hst.
  by rewrite run_app, run_escape.
Qed.

Lemma run_items (xs : list string) (x : string) (items : list string)
    (st : json.state) :
  json.step st json.quote = json.InString items "" →
  json.run st (join ", " (json.encode_basestring_ascii <$> x :: xs) +:+ "]")
  = json.End (items ++ x :: xs).
Proof.
  revert x items st. induction xs as [|y ys IH]; intros x items st Hst.
  - change (join ", " (json.encode_basestring_ascii <$> [x]))
      with (json.encode_basestring_ascii x).
    by rewrite run_app, (run_string _ items).
  - change (join ", " (json.encode_basestring_ascii <$> x :: y :: ys))
      with (json.encode_basestring_ascii x +:+ ", "
            +:+ join ", " (json.encode_basestring_ascii <$> y :: ys)).
    rewrite !string_app_assoc, run_app, (run_string _ items) by done.
    rewrite !string_app_cons. simpl json.run at 1.
    rewrite (IH y (items ++ [x])) by done.
    by rewrite <- app_assoc.
Qed.

(** [json.loads(json.dumps(items)) == items] for every list of strings. *)
Lemma loads_dumps (items : list string) :
  json.loads (json.dumps items) = Some items.
Proof.
  unfold json.loads, json.dumps. destruct items as [|x xs]; [done|].
  rewrite string_app_cons. simpl json.run at 1.
  by rewrite (run_items xs x []).
Qed.

(** ** The table and its row ids *)

Lemma max_rowid_bound (w : World) (id : Z) (row : CertRow.t) :
  w.(certificates) !! id = Some row → id ≤ max_rowid w.
Proof.
  unfold max_rowid. revert id row.
  apply (map_fold_weak_ind
           (λ r (m : gmap Z CertRow.t), ∀ id row, m !! id = Some row → id ≤ r)).
  - intros id row. by rewrite lookup_empty.
  - intros i x m r _ IH id row. rewrite lookup_insert.
    case_decide as Hi.
    + subst. lia.
    + intros Hm. specialize (IH _ _ Hm). lia.
Qed.

(** The id that [insert] assigns is not in the table. *)
Lemma fresh_rowid (w : World) : w.(certificates) !! (max_rowid w + 1) = None.
Proof.
  destruct (certificates w !! (max_rowid w + 1)) as [row|] eqn:Hrow; [|done].
  apply max_rowid_bound in Hrow. lia.
Qed.

Lemma ca_signed_not_failure outcome cert key serial :
  ca_signed outcome cert key serial → ca_failure outcome → False.
Proof.
  intros Hs Hf.
  destruct Hs as [response body r c k Hstatus Hjson Hsuccess Hresult
                    Hcert Hc Hkey Hk].
  inversion Hf as [|? Hst|? body' _ Hjson' Hsuccess'
                  |? body' r' _ Hjson' _ Hresult' Hmiss]; subst.
  - done.
  - rewrite Hjson in Hjson'. by injection Hjson' as <-.
  - rewrite Hjson in Hjson'. injection Hjson' as <-.
    unfold body_result in Hresult'. rewrite Hresult in Hresult'.
    injection Hresult' as <-. rewrite Hcert, Hkey in Hmiss.
    unfold truthy_str in Hmiss.
    rewrite !bool_decide_eq_true_2 in Hmiss by done.
    by destruct Hmiss.
Qed.

(** ** POST /certs writes one row or none *)

(** C1. If the CA call fails (transport error, a status other than 200, a
    success flag that is not true, or no certificate or private key in an
    answer that reports success), [create_cert] raises and the table is
    the one before, with the same number of rows.  If the request was
    posted and the CA call succeeds, [create_cert] returns the record of
    exactly one new row, under an id that was not in the table.  Whenever
    [create_cert] raises, the table is the one before; and when it raises
    because the CA call failed, the status is 502 or 500. *)
Theorem create_cert_all_or_nothing cfssl utcnow payload w r w' :
  create_cert cfssl utcnow payload w = (r, w') →
  let cfssl_request := build_cfssl_request payload in
  (ca_failure (cfssl cfssl_request) →
   ∃ e, r = Raise e ∧ w'.(certificates) = w.(certificates)
        ∧ size w'.(certificates) = size w.(certificates)) ∧
  (w'.(posted) = w.(posted) ++ [cfssl_request] →
   ca_success (cfssl cfssl_request) →
   ∃ response row,
     r = Ok response ∧
     let id := response.(CertCreateResponse.base).(CertOut.id) in
     w.(certificates) !! id = None ∧
     w'.(certificates) = <[id := row]> w.(certificates) ∧
     size w'.(certificates) = S (size w.(certificates))) ∧
  (∀ e, r = Raise e →
        w'.(certificates) = w.(certificates)
        ∧ size w'.(certificates) = size w.(certificates)) ∧
  (w'.(posted) = w.(posted) ++ [cfssl_request] →
   ca_failure (cfssl cfssl_request) →
   ∃ e, r = Raise e ∧ (http_status e = 502 ∨ http_status e = 500)).
Proof.
  intros Hrun cfssl_request. subst cfssl_request.
  assert (Hposted : w'.(posted) = w.(posted) ++ [build_cfssl_request payload] →
            ∃ days expires, resolve_validity_days payload = Ok days
                            ∧ expiry utcnow days = Ok expires).
  { intros Hposted.
    destruct (resolve_validity_days payload) as [days|e] eqn:Hres.
    2:{ rewrite (create_cert_not_resolved _ _ _ _ _ Hres) in Hrun.
        injection Hrun as <- <-.
        apply (f_equal length) in Hposted. rewrite length_app in Hposted.
        simpl in Hposted. lia. }
    destruct (expiry utcnow days) as [expires|e] eqn:Hexp; [by eauto|].
    rewrite (create_cert_overflow _ _ _ _ _ _ Hres Hexp) in Hrun.
    injection Hrun as <- <-.
    apply (f_equal length) in Hposted. rewrite length_app in Hposted.
    simpl in Hposted. lia. }
  assert (Hraise : ∀ e, r = Raise e →
            certificates w' = certificates w
            ∧ size (certificates w') = size (certificates w)).
  { intros e ->.
    apply create_cert_inv in Hrun as [(e' & _ & [-> | ->])|Hok]; [done..|].
    by destruct Hok as (? & ? & ? & ? & ? & _ & _ & _ & ? & _). }
  split; [|split; [|split; [done|]]].
  - intros Hfail.
    destruct (create_cert_inv _ _ _ _ _ _ Hrun)
      as [(e & -> & _)|(days & expires & cert & key & serial
                        & _ & _ & Hsigned & _)].
    + exists e. split; [done|]. by apply (Hraise e).
    + by destruct (ca_signed_not_failure _ _ _ _ Hsigned Hfail).
  - intros Hp (cert & key & serial & Hsigned).
    destruct (Hposted Hp) as (days & expires & Hres & Hexp).
    rewrite (create_cert_signed _ _ _ _ _ _ _ _ _ Hres Hexp Hsigned) in Hrun.
    injection Hrun as <- <-.
    eexists _, _. split; [done|]. simpl.
    split; [apply fresh_rowid|]. split; [done|].
    apply map_size_insert_None, fresh_rowid.
  - intros Hp Hfail.
    destruct (Hposted Hp) as (days & expires & Hres & Hexp).
    destruct (create_cert_ca_failure cfssl utcnow payload w _ _ Hres Hexp Hfail)
      as (e & He & Hstatus).
    rewrite He in Hrun. injection Hrun as <- <-. by exists e.
Qed.

Lemma sample_signed_ok request :
  ca_signed (signing_ca request) "CERT" "KEY" (Some "42").
Proof.
  unfold signing_ca.
  by apply (ca_signed_intro sample_signed sample_body sample_result).
Defined.

Lemma create_cert_all_or_nothing_witness :
  let payload := sample_payload "1y" None in
  let failed := create_cert unreachable_ca sample_now payload empty_world in
  let signed := create_cert signing_ca sample_now payload empty_world in
  (ca_failure (unreachable_ca (build_cfssl_request payload))
   ∧ ∃ e, failed.1 = Raise e
          ∧ size failed.2.(certificates) = size empty_world.(certificates))
  ∧ (ca_success (signing_ca (build_cfssl_request payload))
     ∧ ∃ response, signed.1 = Ok response
                   ∧ size signed.2.(certificates) = 1%nat).
Proof.
  intros payload failed signed. split.
  - split; [apply transport_error|].
    destruct (create_cert_all_or_nothing unreachable_ca sample_now payload
                empty_world failed.1 failed.2 eq_refl) as (Hfail & _ & _ & _).
    destruct (Hfail (transport_error _)) as (e & He & _ & Hsize).
    exists e. by split.
  - assert (Hs : ca_success (signing_ca (build_cfssl_request payload))).
    { exists "CERT", "KEY", (Some "42"). apply sample_signed_ok. }
    split; [exact Hs|].
    destruct (create_cert_all_or_nothing signing_ca sample_now payload
                empty_world signed.1 signed.2 eq_refl) as (_ & Hok & _ & _).
    destruct (Hok eq_refl Hs) as (response & row & Hr & _ & _ & Hsize).
    exists response. split; [exact Hr|exact Hsize].
Defined.

(** ** Custom validity *)

(** C3. With the option [custom], resolution raises the 400 error when
    [validity_days] is absent or not above 0, and returns [d] when it is
    a positive [d]; the record that [create_cert] then creates is issued at
    the current time and expires [d] days later to the microsecond, in the
    response and in the stored row. *)
Theorem resolve_validity_days_custom (payload : CertCreate.t) :
  lower payload.(CertCreate.validity_option) = "custom" →
  (payload.(CertCreate.validity_days) = None →
   resolve_validity_days payload = Raise (HTTPException 400 CustomDaysRequired))
  ∧ (∀ d, payload.(CertCreate.validity_days) = Some d → d ≤ 0 →
     resolve_validity_days payload
     = Raise (HTTPException 400 CustomDaysRequired))
  ∧ (∀ d, payload.(CertCreate.validity_days) = Some d → 0 < d →
     resolve_validity_days payload = Ok d
     ∧ ∀ cfssl utcnow w response w',
         create_cert cfssl utcnow payload w = (Ok response, w') →
         let record := response.(CertCreateResponse.base) in
         record.(CertOut.issued_at) = utcnow
         ∧ record.(CertOut.expires_at)
           = record.(CertOut.issued_at) + d * day_us
         ∧ ∃ row, w'.(certificates) !! record.(CertOut.id) = Some row
                  ∧ row.(CertRow.issued_at) = isoformat utcnow
                  ∧ row.(CertRow.expires_at) = isoformat (utcnow + d * day_us)
                  ∧ row.(CertRow.validity_days) = Some d).
Proof.
  intros Hlow.
  assert (Hres : ∀ d, payload.(CertCreate.validity_days) = Some d → 0 < d →
                 resolve_validity_days payload = Ok d).
  { intros d Hd Hpos. unfold resolve_validity_days.
    rewrite (resolved_option payload "custom") by done.
    rewrite Hd. simpl.
    rewrite bool_decide_eq_true_2 by lia. simpl.
    by destruct (Z.leb_spec d 0); [lia|]. }
  split; [|split].
  - intros Hd. unfold resolve_validity_days.
    rewrite (resolved_option payload "custom") by done. by rewrite Hd.
  - intros d Hd Hle. unfold resolve_validity_days.
    rewrite (resolved_option payload "custom") by done.
    rewrite Hd. simpl.
    destruct (Z.leb_spec d 0); [|lia]. by rewrite orb_true_r.
  - intros d Hd Hpos. split; [by apply Hres|].
    intros cfssl utcnow w response w' Hrun.
    apply create_cert_inv in Hrun
      as [(e & [=] & _)|(days & expires & cert & key & serial
                         & Hdays & Hexp & _ & [= ->] & ->)].
    rewrite (Hres d Hd Hpos) in Hdays. injection Hdays as <-.
    unfold expiry, timedelta_days, datetime_add in Hexp.
    destruct (Z.abs d <=? 999999999); [|done]. simpl in Hexp.
    destruct ((0 <=? utcnow + d * day_us)
              && (utcnow + d * day_us <? MAXORDINAL * day_us)); [|done].
    injection Hexp as <-. simpl.
    split; [done|]. split; [done|].
    eexists. rewrite lookup_insert_eq. by split.
Qed.

Lemma resolve_validity_days_custom_witness :
  let payload := sample_payload "custom" (Some 90) in
  lower payload.(CertCreate.validity_option) = "custom"
  ∧ resolve_validity_days payload = Ok 90
  ∧ ∃ response w',
      create_cert signing_ca sample_now payload empty_world = (Ok response, w')
      ∧ response.(CertCreateResponse.base).(CertOut.expires_at)
        = response.(CertCreateResponse.base).(CertOut.issued_at) + 90 * day_us.
Proof.
  intros payload.
  destruct (resolve_validity_days_custom payload eq_refl) as (_ & _ & H).
  destruct (H 90 eq_refl eq_refl) as [Hres Hrec].
  split; [reflexivity|]. split; [exact Hres|].
  pose (expires := sample_now + 90 * day_us).
  pose (response := created_response 1 payload sample_now expires 90
                      "CERT" "KEY" (Some "42")).
  pose (row := certificate_row payload sample_now expires 90
                 "CERT" "KEY" (Some "42")).
  assert (Hrun : create_cert signing_ca sample_now payload empty_world
                 = (Ok response, after_insert payload row empty_world))
    by reflexivity.
  exists response, (after_insert payload row empty_world).
  split; [exact Hrun|].
  by destruct (Hrec signing_ca sample_now empty_world _ _ Hrun)
    as (_ & Hexp & _).
Defined.

(** ** Options that are not recognised *)

(** C4 as amended.  A request whose [validity_option] is not empty and, in
    lower case, is neither a preset nor [custom] is answered with the 400
    error, and the world is the one before: nothing was posted to the CA.
    An empty [validity_option] resolves like [1y]. *)
Theorem unrecognised_option_rejected cfssl utcnow payload w :
  (payload.(CertCreate.validity_option) ≠ "" →
   VALIDITY_OPTIONS_DAYS !! lower payload.(CertCreate.validity_option) = None →
   lower payload.(CertCreate.validity_option) ≠ "custom" →
   create_cert cfssl utcnow payload w
   = (Raise (HTTPException 400 InvalidValidityOption), w))
  ∧ (payload.(CertCreate.validity_option) = "" →
     resolve_validity_days payload = Ok 365).
Proof.
  split.
  - intros Hne Hpreset Hcustom. apply create_cert_not_resolved.
    unfold resolve_validity_days. rewrite str_or_nonempty by done.
    rewrite Hpreset. by destruct (decide _).
  - intros Hempty. unfold resolve_validity_days. by rewrite Hempty.
Qed.

Lemma unrecognised_option_rejected_witness :
  let payload := sample_payload "2y" None in
  payload.(CertCreate.validity_option) ≠ ""
  ∧ VALIDITY_OPTIONS_DAYS !! lower payload.(CertCreate.validity_option) = None
  ∧ lower payload.(CertCreate.validity_option) ≠ "custom"
  ∧ create_cert signing_ca sample_now payload empty_world
    = (Raise (HTTPException 400 InvalidValidityOption), empty_world).
Proof.
  intros payload.
  assert (H1 : payload.(CertCreate.validity_option) ≠ "") by done.
  assert (H2 : VALIDITY_OPTIONS_DAYS
               !! lower payload.(CertCreate.validity_option) = None)
    by reflexivity.
  assert (H3 : lower payload.(CertCreate.validity_option) ≠ "custom") by done.
  repeat (split; [assumption|]).
  exact (proj1 (unrecognised_option_rejected signing_ca sample_now payload
                  empty_world) H1 H2 H3).
Defined.

(** C4 as stated fails at the empty option: it is neither a preset nor
    [custom], and yet the request is posted to the CA and a record with
    365 days is created. *)
Lemma empty_option_reaches_ca :
  let payload := sample_payload "" None in
  VALIDITY_OPTIONS_DAYS !! lower payload.(CertCreate.validity_option) = None
  ∧ lower payload.(CertCreate.validity_option) ≠ "custom"
  ∧ ∃ response w',
      create_cert signing_ca sample_now payload empty_world = (Ok response, w')
      ∧ w'.(posted) = [build_cfssl_request payload]
      ∧ response.(CertCreateResponse.base).(CertOut.validity_days) = Some 365.
Proof.
  intros payload. split; [reflexivity|]. split; [done|].
  eexists _, _. split; [vm_compute; reflexivity|]. by split.
Qed.

(** ** Downloads *)

Lemma encode_utf8_app (s1 s2 : string) :
  encode_utf8 (s1 +:+ s2) = encode_utf8 s1 ++ encode_utf8 s2.
Proof.
  induction s1 as [|c s1 IH]; [done|].
  rewrite string_app_cons. simpl. by rewrite IH, app_assoc.
Qed.

(** [replace_char] changes exactly the occurrences of [old]. *)
Lemma replace_char_get (old new : ascii) (s : string) (i : nat) :
  String.get i (replace_char old new s)
  = (λ c, if Ascii.eqb c old then new else c) <$> String.get i s.
Proof.
  revert i. induction s as [|c s IH]; intros i; [done|].
  destruct i as [|i]; simpl; [done|apply IH].
Qed.

Lemma get_certificate_row_found (w : World) (cert_id : Z) (row : CertRow.t) :
  w.(certificates) !! cert_id = Some row →
  _get_certificate_row cert_id w = Ok row.
Proof. intros H. unfold _get_certificate_row. by rewrite H. Qed.

(** C5. For a stored record, [download_pem] answers the bytes of the
    certificate, a line feed, the bytes of the private key and a line
    feed, as an attachment named [cert_], the id in decimal, [_], the
    common name with each dot turned into an underscore, and [.pem]. *)
Theorem download_pem_bundle (w : World) (cert_id : Z) (row : CertRow.t) :
  w.(certificates) !! cert_id = Some row →
  let sanitized := replace_char "." "_" row.(CertRow.cn) in
  download_pem cert_id w
  = Ok {| body := encode_utf8 row.(CertRow.certificate_pem) ++ [Byte.x0a]
                  ++ encode_utf8 row.(CertRow.private_key_pem) ++ [Byte.x0a];
          media_type := "application/x-pem-file";
          content_disposition :=
            "attachment; filename=" +:+
            ("cert_" +:+ str_of_int cert_id +:+ "_" +:+ sanitized +:+ ".pem") |}
  ∧ encode_utf8 (row.(CertRow.certificate_pem) +:+ newline
                 +:+ row.(CertRow.private_key_pem) +:+ newline)
    = encode_utf8 row.(CertRow.certificate_pem) ++ [Byte.x0a]
      ++ encode_utf8 row.(CertRow.private_key_pem) ++ [Byte.x0a]
  ∧ ∀ i, String.get i sanitized
         = (λ c, if Ascii.eqb c "." then "_"%char else c)
           <$> String.get i row.(CertRow.cn).
Proof.
  intros Hrow sanitized.
  assert (Hbytes : encode_utf8 (row.(CertRow.certificate_pem) +:+ newline
                                +:+ row.(CertRow.private_key_pem) +:+ newline)
                   = encode_utf8 row.(CertRow.certificate_pem) ++ [Byte.x0a]
                     ++ encode_utf8 row.(CertRow.private_key_pem) ++ [Byte.x0a]).
  { by rewrite !encode_utf8_app. }
  split; [|split; [exact Hbytes|intros i; apply replace_char_get]].
  unfold download_pem. rewrite (get_certificate_row_found _ _ _ Hrow).
  simpl. unfold mret, result_ret. by rewrite Hbytes.
Qed.

Lemma download_pem_bundle_witness :
  let w := (create_cert signing_ca sample_now (sample_payload "1y" None)
              empty_world).2 in
  ∃ row, w.(certificates) !! 1 = Some row
         ∧ download_pem 1 w
           = Ok {| body := encode_utf8 "CERT" ++ [Byte.x0a]
                           ++ encode_utf8 "KEY" ++ [Byte.x0a];
                   media_type := "application/x-pem-file";
                   content_disposition :=
                     "attachment; filename=cert_1_www_example_org.pem" |}.
Proof.
  intros w.
  pose (row := certificate_row (sample_payload "1y" None) sample_now
                 (sample_now + 365 * day_us) 365 "CERT" "KEY" (Some "42")).
  assert (Hrow : w.(certificates) !! 1 = Some row) by reflexivity.
  exists row. split; [exact Hrow|].
  exact (proj1 (download_pem_bundle w 1 row Hrow)).
Defined.

Section PKCS12_properties.
Variables Certificate PrivateKey : Type.
Variable load_pem_x509_certificate : list Byte.byte → option Certificate.
Variable load_pem_private_key :
  list Byte.byte → option (list Byte.byte) → option PrivateKey.
Variable serialize_key_and_certificates :
  option (list Byte.byte) → PrivateKey → Certificate →
  option (list Certificate) → KeySerializationEncryption →
  option (list Byte.byte).

Local Abbreviation p12 :=
  (download_p12 Certificate PrivateKey load_pem_x509_certificate
     load_pem_private_key serialize_key_and_certificates).

Lemma encode_utf8_nonempty (s : string) : s ≠ "" → encode_utf8 s ≠ [].
Proof.
  destruct s as [|c s]; [done|]. intros _. simpl. unfold encode_utf8_char.
  by destruct (N_of_ascii c <? 128)%N.
Qed.

(** C9. For a stored record with a private key whose PEM texts load,
    [download_p12] answers what [serialize_key_and_certificates] makes of
    the loaded key and certificate with the common name as the friendly
    name and no further certificates; the encryption that is passed is
    [BestAvailableEncryption] of the password exactly when a password is
    given and is not empty, and [NoEncryption] otherwise. *)
Theorem download_p12_container (w : World) (cert_id : Z) (row : CertRow.t)
    (password : option string) (certificate : Certificate)
    (private_key : PrivateKey) :
  w.(certificates) !! cert_id = Some row →
  row.(CertRow.private_key_pem) ≠ "" →
  load_pem_x509_certificate (encode_utf8 row.(CertRow.certificate_pem))
  = Some certificate →
  load_pem_private_key (encode_utf8 row.(CertRow.private_key_pem)) None
  = Some private_key →
  p12 cert_id password w
  = (pkcs12_bytes ← library (serialize_key_and_certificates
                               (Some (encode_utf8 row.(CertRow.cn)))
                               private_key certificate None
                               (encryption_for password));
     Ok {| body := pkcs12_bytes;
           media_type := "application/x-pkcs12";
           content_disposition :=
             "attachment; filename=" +:+
             download_filename cert_id row.(CertRow.cn) ".p12" |})
  ∧ (∀ pw, password = Some pw → pw ≠ "" →
       encryption_for password = BestAvailableEncryption (encode_utf8 pw)
       ∧ encode_utf8 pw ≠ [])
  ∧ (password = None ∨ password = Some "" →
     encryption_for password = NoEncryption)
  ∧ (encryption_for password = NoEncryption →
     password = None ∨ password = Some "").
Proof.
  intros Hrow Hkey Hcert Hpriv. split; [|split; [|split]].
  - unfold download_p12.
    rewrite (get_certificate_row_found _ _ _ Hrow). simpl.
    rewrite bool_decide_eq_true_2 by done. simpl.
    rewrite Hcert, Hpriv. simpl. done.
  - intros pw -> Hpw. unfold encryption_for. simpl.
    rewrite bool_decide_eq_true_2 by done.
    split; [done|by apply encode_utf8_nonempty].
  - by intros [-> | ->].
  - unfold encryption_for. destruct password as [pw|]; [|by left].
    simpl. destruct (decide (pw = "")) as [->|Hpw]; [by right|].
    by rewrite bool_decide_eq_true_2.
Qed.

(** C6, at a record without a private key: [download_p12] answers 404,
    and [download_pem] answers a bundle whose key part is empty, where it
    was to fail too. *)
Theorem download_pem_serves_keyless_record :
  p12 7 None keyless_world
  = Raise (HTTPException 404 (Text "Private key not available"))
  ∧ download_pem 7 keyless_world
    = Ok {| body := encode_utf8 "CERT" ++ [Byte.x0a; Byte.x0a];
            media_type := "application/x-pem-file";
            content_disposition :=
              "attachment; filename=cert_7_old_example_org.pem" |}.
Proof. split; reflexivity. Qed.

End PKCS12_properties.

Lemma download_p12_container_witness :
  let w := (create_cert signing_ca sample_now (sample_payload "1y" None)
              empty_world).2 in
  let load_certificate (pem : list Byte.byte) := Some pem in
  let load_key (pem : list Byte.byte) (_ : option (list Byte.byte)) :=
    Some pem in
  let serialize (name : option (list Byte.byte)) (key cert : list Byte.byte)
      (cas : option (list (list Byte.byte)))
      (encryption : KeySerializationEncryption) :=
    match encryption with
    | BestAvailableEncryption password => Some (password ++ key ++ cert)
    | NoEncryption => Some (key ++ cert)
    end in
  ∃ response,
    download_p12 _ _ load_certificate load_key serialize 1 (Some "secret") w
    = Ok response
    ∧ response.(body)
      = encode_utf8 "secret" ++ encode_utf8 "KEY" ++ encode_utf8 "CERT".
Proof.
  intros w load_certificate load_key serialize.
  pose (row := certificate_row (sample_payload "1y" None) sample_now
                 (sample_now + 365 * day_us) 365 "CERT" "KEY" (Some "42")).
  assert (Hrow : w.(certificates) !! 1 = Some row) by reflexivity.
  assert (Hkey : row.(CertRow.private_key_pem) ≠ "") by done.
  destruct (download_p12_container _ _ load_certificate load_key serialize
              w 1 row (Some "secret") _ _ Hrow Hkey eq_refl eq_refl)
    as [Hrun _].
  eexists. split; [exact Hrun|reflexivity].
Defined.

(** ** The rows that [list_certs] reads *)

#[local] Instance id_desc_total : Total id_desc.
Proof. intros x y. unfold id_desc. lia. Qed.

#[local] Instance id_desc_trans : Transitive id_desc.
Proof. intros x y z. unfold id_desc. lia. Qed.














(** ** The states that the service produces *)

Lemma reachable_rows (w : World) :
  reachable w →
  ∀ id row, w.(certificates) !! id = Some row → service_row row.
Proof.
  induction 1 as [|cfssl utcnow payload w Hw IH]; intros id row.
  - simpl. by rewrite lookup_empty.
  - destruct (create_cert cfssl utcnow payload w) as [r w'] eqn:Hrun. simpl.
    apply create_cert_inv in Hrun
      as [(e & _ & [-> | ->])
         |(days & expires & cert & key & serial
           & Hres & Hexp & Hsigned & _ & ->)]; [apply IH..|].
    simpl. rewrite lookup_insert. case_decide; [|apply IH].
    intros [= <-]. inversion Hsigned; subst. by constructor.
Qed.

Lemma sans_or_cn_nonempty (payload : CertCreate.t) : sans_or_cn payload ≠ [].
Proof. unfold sans_or_cn. by destruct (CertCreate.sans payload) eqn:H. Qed.




(** ** Private keys do not show in the list *)




(** ** GET /certs *)


Lemma sample_world_reachable : reachable sample_world.
Proof. unfold sample_world. do 2 apply reachable_create. apply reachable_empty. Defined.


(** ** Subject alternative names *)

(** C8. For a request with an empty [sans], the request that is posted
    to the CA has [hosts = [cn]] (and [create_cert] posts that request or
    none), and the record that is created has [sans = [cn]], stored as the
    JSON text of that list.  In every state that the service produces,
    every row stores the JSON text of a list that is not empty. *)
Theorem empty_sans_default :
  (∀ cfssl utcnow payload w r w',
     payload.(CertCreate.sans) = [] →
     create_cert cfssl utcnow payload w = (r, w') →
     (build_cfssl_request payload).(request).(hosts)
     = [payload.(CertCreate.cn)]
     ∧ (w'.(posted) = w.(posted)
        ∨ w'.(posted) = w.(posted) ++ [build_cfssl_request payload])
     ∧ ∀ response,
         r = Ok response →
         let record := response.(CertCreateResponse.base) in
         record.(CertOut.sans) = [payload.(CertCreate.cn)]
         ∧ ∃ row, w'.(certificates) !! record.(CertOut.id) = Some row
                  ∧ row.(CertRow.sans) = json.dumps [payload.(CertCreate.cn)]
                  ∧ json.loads row.(CertRow.sans)
                    = Some [payload.(CertCreate.cn)])
  ∧ (∀ w,
       reachable w →
       ∀ id row,
         w.(certificates) !! id = Some row →
         ∃ items, items ≠ []
                  ∧ row.(CertRow.sans) = json.dumps items
                  ∧ json.loads row.(CertRow.sans) = Some items).
Proof.
  split.
  - intros cfssl utcnow payload w r w' Hsans Hrun.
    assert (Hdefault : sans_or_cn payload = [payload.(CertCreate.cn)]).
    { unfold sans_or_cn. by rewrite Hsans. }
    split; [done|].
    apply create_cert_inv in Hrun
      as [(e & -> & [-> | ->])
         |(days & expires & cert & key & serial & _ & _ & _ & -> & ->)].
    + split; [by left|done].
    + split; [by right|done].
    + split; [by right|]. intros response [= <-]. simpl.
      split; [done|]. eexists. rewrite lookup_insert_eq.
      split; [done|]. simpl. rewrite Hdefault.
      split; [done|apply loads_dumps].
  - intros w Hw id row Hrow.
    destruct (reachable_rows w Hw id row Hrow)
      as [payload issued expires days cert key serial _ _ _ _].
    exists (sans_or_cn payload). simpl.
    split; [apply sans_or_cn_nonempty|]. split; [done|apply loads_dumps].
Qed.

Lemma empty_sans_default_witness :
  let payload := sample_payload "1y" None in
  payload.(CertCreate.sans) = []
  ∧ ∃ response w',
      create_cert signing_ca sample_now payload empty_world = (Ok response, w')
      ∧ hosts (request (build_cfssl_request payload)) = ["www.example.org"]
      ∧ w'.(posted) = [build_cfssl_request payload]
      ∧ ∃ row, w'.(certificates) !! 1 = Some row
               ∧ json.loads row.(CertRow.sans) = Some ["www.example.org"].
Proof.
  intros payload. split; [reflexivity|].
  pose (expires := sample_now + 365 * day_us).
  pose (response := created_response 1 payload sample_now expires 365
                      "CERT" "KEY" (Some "42")).
  pose (row := certificate_row payload sample_now expires 365
                 "CERT" "KEY" (Some "42")).
  assert (Hrun : create_cert signing_ca sample_now payload empty_world
                 = (Ok response, after_insert payload row empty_world))
    by reflexivity.
  exists response, (after_insert payload row empty_world).
  split; [exact Hrun|].
  destruct (proj1 empty_sans_default signing_ca sample_now payload empty_world
              _ _ eq_refl Hrun) as (Hhosts & _ & Hrecord).
  split; [exact Hhosts|]. split; [reflexivity|].
  destruct (Hrecord response eq_refl) as (_ & row' & Hrow' & _ & Hloads).
  exists row'. split; [exact Hrow'|exact Hloads].
Defined.

(** ** The stored names are read back *)



(** * Further properties of the code *)

(** ** [resolve_validity_days]: every outcome *)

Lemma preset_lookup (option : string) (days : Z) :
  VALIDITY_OPTIONS_DAYS !! option = Some days ↔ (option, days) ∈ preset_days.
Proof.
  unfold VALIDITY_OPTIONS_DAYS, preset_days.
  rewrite !lookup_insert_Some, lookup_singleton_Some, !elem_of_cons,
    elem_of_nil.
  split.
  - intros [[<- <-]|[? [[<- <-]|[? [[<- <-]|[? [<- <-]]]]]]]; auto.
  - intros [[= -> ->]|[[= -> ->]|[[= -> ->]|[[= -> ->]|[]]]]].
    + by left.
    + right. split; [done|]. by left.
    + right. split; [done|]. right. split; [done|]. by left.
    + right. split; [done|]. right. split; [done|]. right. by split.
Qed.

Lemma preset_days_positive (option : string) (days : Z) :
  (option, days) ∈ preset_days → 0 < days.
Proof.
  unfold preset_days. rewrite !elem_of_cons, elem_of_nil.
  intros [[= _ ->]|[[= _ ->]|[[= _ ->]|[[= _ ->]|[]]]]]; lia.
Qed.

(** X1. [resolve_validity_days] has two outcomes only: a number of days
    above 0, which is a preset's or the [validity_days] of a [custom]
    request, or an [HTTPException] of status 400. *)
Theorem resolve_validity_days_outcomes (payload : CertCreate.t) :
  let option := lower (str_or payload.(CertCreate.validity_option) "1y") in
  (∃ days, resolve_validity_days payload = Ok days ∧ 0 < days
           ∧ ((option, days) ∈ preset_days
              ∨ (option = "custom"
                 ∧ payload.(CertCreate.validity_days) = Some days)))
  ∨ (∃ detail, resolve_validity_days payload
               = Raise (HTTPException 400 detail)).
Proof.
  intros option. unfold resolve_validity_days. fold option.
  destruct (VALIDITY_OPTIONS_DAYS !! option) as [days|] eqn:Hpreset.
  - apply preset_lookup in Hpreset. left. exists days.
    split; [done|]. split; [by eapply preset_days_positive|by left].
  - destruct (decide (option = "custom")) as [Hcustom|]; [|right; eauto].
    destruct (CertCreate.validity_days payload) as [d|]; [|right; eauto].
    simpl. destruct (Z.leb_spec d 0) as [|Hpos].
    + rewrite orb_true_r. right. eauto.
    + rewrite bool_decide_eq_true_2 by lia. simpl. left. exists d.
      split; [done|]. split; [done|]. by right.
Qed.

Lemma resolved_days_positive (payload : CertCreate.t) (days : Z) :
  resolve_validity_days payload = Ok days → 0 < days.
Proof.
  unfold resolve_validity_days.
  destruct (VALIDITY_OPTIONS_DAYS !! _) as [d|] eqn:Hpreset.
  - intros [= <-]. apply preset_lookup in Hpreset.
    by eapply preset_days_positive.
  - destruct (decide _); [|done].
    destruct (CertCreate.validity_days payload) as [d|]; [|done].
    destruct (Z.leb_spec d 0); [by rewrite orb_true_r|].
    destruct (negb _); [done|]. by intros [= <-].
Qed.

Lemma lower_empty (s : string) : lower s = "" ↔ s = "".
Proof. split; [by destruct s|by intros ->]. Qed.

(** X2. The letter case of [validity_option] does not matter: two
    requests whose options have the same lower-case form, with the same
    [validity_days], resolve alike, to the same days or the same error. *)
Theorem resolve_validity_days_case_insensitive (payload1 payload2 : CertCreate.t) :
  lower payload1.(CertCreate.validity_option)
  = lower payload2.(CertCreate.validity_option) →
  payload1.(CertCreate.validity_days) = payload2.(CertCreate.validity_days) →
  resolve_validity_days payload1 = resolve_validity_days payload2.
Proof.
  intros Hlow Hdays. unfold resolve_validity_days. rewrite Hdays.
  assert (lower (str_or payload1.(CertCreate.validity_option) "1y")
          = lower (str_or payload2.(CertCreate.validity_option) "1y")) as ->;
    [|done].
  unfold str_or.
  destruct (decide (CertCreate.validity_option payload1 = "")) as [H1|H1],
           (decide (CertCreate.validity_option payload2 = "")) as [H2|H2];
    try done.
  - rewrite H1 in Hlow. simpl in Hlow. symmetry in Hlow.
    by apply (proj1 (lower_empty _)) in Hlow.
  - rewrite H2 in Hlow. simpl in Hlow.
    by apply (proj1 (lower_empty _)) in Hlow.
Qed.

Lemma resolve_validity_days_case_insensitive_witness :
  resolve_validity_days (sample_payload "CusTom" (Some 30))
  = resolve_validity_days (sample_payload "custom" (Some 30))
  ∧ resolve_validity_days (sample_payload "custom" (Some 30)) = Ok 30.
Proof.
  split; [|reflexivity].
  apply (resolve_validity_days_case_insensitive
           (sample_payload "CusTom" (Some 30))
           (sample_payload "custom" (Some 30))); reflexivity.
Defined.

(** ** [create_cert]: the record and the errors *)

Lemma expiry_inv (utcnow : datetime) (days : Z) (expires : datetime) :
  expiry utcnow days = Ok expires →
  Z.abs days ≤ 999999999 ∧ expires = utcnow + days * day_us
  ∧ 0 ≤ expires < MAXORDINAL * day_us.
Proof.
  unfold expiry, timedelta_days, datetime_add, mbind, result_bind.
  destruct (Z.leb_spec (Z.abs days) 999999999); [|done].
  destruct (Z.leb_spec 0 (utcnow + days * day_us)); [|done].
  destruct (Z.ltb_spec (utcnow + days * day_us) (MAXORDINAL * day_us));
    [|done].
  intros [= <-]. lia.
Qed.

Lemma expiry_raises (utcnow : datetime) (days : Z) (e : Exception) :
  expiry utcnow days = Raise e → e = Unhandled OverflowError.
Proof.
  unfold expiry, timedelta_days, datetime_add, mbind, result_bind.
  destruct (Z.abs days <=? 999999999); [|by intros [= <-]].
  destruct ((0 <=? _) && _); [done|by intros [= <-]].
Qed.

Lemma day_us_positive : 0 < day_us.
Proof. reflexivity. Qed.

(** X3. Every record that [create_cert] returns, whatever the option, is
    issued at the current time and expires a whole, positive number of
    days later (at most 999999999), strictly after it was issued and
    within the range of [datetime]; it is [valid] and has its key. *)
Theorem created_record_expires_later cfssl utcnow payload w response w' :
  create_cert cfssl utcnow payload w = (Ok response, w') →
  let record := response.(CertCreateResponse.base) in
  ∃ days,
    record.(CertOut.validity_days) = Some days
    ∧ 0 < days ≤ 999999999
    ∧ record.(CertOut.issued_at) = utcnow
    ∧ record.(CertOut.expires_at) = record.(CertOut.issued_at) + days * day_us
    ∧ record.(CertOut.issued_at) < record.(CertOut.expires_at)
    ∧ record.(CertOut.expires_at) < MAXORDINAL * day_us
    ∧ record.(CertOut.status) = "valid"
    ∧ record.(CertOut.has_private_key) = true
    ∧ response.(CertCreateResponse.private_key_pem) ≠ "".
Proof.
  intros Hrun.
  apply create_cert_inv in Hrun
    as [(e & [=] & _)|(days & expires & cert & key & serial
                       & Hdays & Hexp & Hsigned & [= ->] & ->)].
  apply resolved_days_positive in Hdays.
  apply expiry_inv in Hexp as (Habs & -> & Hlo & Hhi).
  pose proof day_us_positive.
  exists days. simpl. repeat split; try done; try lia; try nia.
  by inversion Hsigned.
Qed.

Lemma created_record_expires_later_witness :
  ∃ response w',
    create_cert signing_ca sample_now (sample_payload "5Y" None) empty_world
    = (Ok response, w')
    ∧ response.(CertCreateResponse.base).(CertOut.expires_at)
      = sample_now + 1825 * day_us.
Proof.
  pose (payload := sample_payload "5Y" None).
  pose (expires := sample_now + 1825 * day_us).
  pose (response := created_response 1 payload sample_now expires 1825
                      "CERT" "KEY" (Some "42")).
  pose (row := certificate_row payload sample_now expires 1825
                 "CERT" "KEY" (Some "42")).
  assert (Hrun : create_cert signing_ca sample_now payload empty_world
                 = (Ok response, after_insert payload row empty_world))
    by reflexivity.
  exists response, (after_insert payload row empty_world).
  split; [exact Hrun|].
  destruct (created_record_expires_later _ _ _ _ _ _ Hrun)
    as (days & Hdays & _ & _ & Hexp & _).
  injection Hdays as <-. exact Hexp.
Defined.

Lemma resolve_raises_400 (payload : CertCreate.t) (e : Exception) :
  resolve_validity_days payload = Raise e → http_status e = 400.
Proof.
  unfold resolve_validity_days.
  destruct (VALIDITY_OPTIONS_DAYS !! _); [done|].
  destruct (decide _); [|by intros [= <-]].
  destruct (CertCreate.validity_days payload) as [d|]; [|by intros [= <-]].
  destruct (negb _ || _); [by intros [= <-]|done].
Qed.

(** A run in which the request was posted: what the answer of the CA
    makes of it. *)
Lemma create_cert_posted cfssl utcnow payload w days expires r w' :
  resolve_validity_days payload = Ok days →
  expiry utcnow days = Ok expires →
  create_cert cfssl utcnow payload w = (r, w') →
  (∃ e, r = Raise e ∧ w' = after_post payload w
        ∧ (http_status e = 502 ∨ http_status e = 500))
  ∨ (∃ response, r = Ok response).
Proof.
  intros Hres Hexp. unfold create_cert. unfold_M. rewrite Hres, Hexp.
  cbn [certificates sqlite_sequence posted]. fold (after_post payload w).
  destruct (cfssl (build_cfssl_request payload)) as [exc|response];
    [intros [= <- <-]; left; eauto|].
  destruct (decide (status_code response ≠ 200));
    [intros [= <- <-]; left; eauto|].
  destruct (response_json response) as [body|e] eqn:Hjson.
  2:{ unfold response_json in Hjson. destruct (json_ response); [done|].
      injection Hjson as <-. intros [= <- <-]. left. eauto. }
  destruct (negb (default false (success body)));
    [intros [= <- <-]; left; eauto|].
  destruct (body_result body) as [res|e] eqn:Hbody.
  2:{ unfold body_result in Hbody. destruct (result_ body); [done| |done].
      injection Hbody as <-. intros [= <- <-]. left. eauto. }
  destruct (certificate res) as [cert|];
    [|intros [= <- <-]; left; eauto].
  destruct (private_key res) as [key|];
    [|intros [= <- <-]; left; eauto].
  destruct (negb _ || negb _); [intros [= <- <-]; left; eauto|].
  intros [= <- <-]. right. eauto.
Qed.

(** X4. When [create_cert] raises, it is for one of three reasons.  The
    validity did not resolve: status 400, and the world is untouched.  The
    expiry is out of range: an [OverflowError] that is not handled, and
    the world is untouched.  Or the request was posted, once, and what
    came back was no certificate with its key: status 502 or 500, with
    the table as it was. *)
Theorem create_cert_error_status cfssl utcnow payload w e w' :
  create_cert cfssl utcnow payload w = (Raise e, w') →
  (resolve_validity_days payload = Raise e ∧ http_status e = 400 ∧ w' = w)
  ∨ (∃ days, resolve_validity_days payload = Ok days
             ∧ expiry utcnow days = Raise e
             ∧ e = Unhandled OverflowError ∧ w' = w)
  ∨ (∃ days expires,
       resolve_validity_days payload = Ok days
       ∧ expiry utcnow days = Ok expires
       ∧ w'.(posted) = w.(posted) ++ [build_cfssl_request payload]
       ∧ w'.(certificates) = w.(certificates)
       ∧ w'.(sqlite_sequence) = w.(sqlite_sequence)
       ∧ (http_status e = 502 ∨ http_status e = 500)).
Proof.
  intros Hrun.
  destruct (resolve_validity_days payload) as [days|e0] eqn:Hres.
  2:{ rewrite (create_cert_not_resolved _ _ _ _ _ Hres) in Hrun.
      injection Hrun as <- <-. left.
      split; [done|]. split; [by eapply resolve_raises_400|done]. }
  destruct (expiry utcnow days) as [expires|e0] eqn:Hexp.
  2:{ rewrite (create_cert_overflow _ _ _ _ _ _ Hres Hexp) in Hrun.
      injection Hrun as <- <-. right. left. exists days.
      split; [done|]. split; [done|]. split; [by eapply expiry_raises|done]. }
  right. right. exists days, expires.
  destruct (create_cert_posted _ _ _ _ _ _ _ _ Hres Hexp Hrun)
    as [(e' & [= <-] & -> & Hstatus)|(response & [=])].
  by repeat split.
Qed.

Lemma create_cert_error_status_witness :
  ∃ e w',
    create_cert unreachable_ca sample_now (sample_payload "1y" None)
      empty_world = (Raise e, w')
    ∧ http_status e = 502
    ∧ w'.(posted) = [build_cfssl_request (sample_payload "1y" None)].
Proof.
  pose (payload := sample_payload "1y" None).
  pose (e := HTTPException 502
               (Text "Failed to reach CFSSL: connection refused")).
  assert (Hrun : create_cert unreachable_ca sample_now payload empty_world
                 = (Raise e, after_post payload empty_world)) by reflexivity.
  exists e, (after_post payload empty_world). split; [exact Hrun|].
  destruct (create_cert_error_status _ _ _ _ _ _ Hrun)
    as [(_ & H400 & _)|[(days & _ & _ & He & _)
                       |(days & expires & _ & _ & Hposted & _)]].
  - discriminate H400.
  - discriminate He.
  - split; [reflexivity|exact Hposted].
Defined.

(** X5. A validity that carries the expiry past the last day of
    [datetime] (the year 9999) is not a 400 error: [create_cert] raises
    an [OverflowError] that is not handled, before anything is posted to
    the CA or written. *)
Theorem create_cert_expiry_out_of_range cfssl utcnow payload w days :
  resolve_validity_days payload = Ok days →
  MAXORDINAL * day_us ≤ utcnow + days * day_us →
  create_cert cfssl utcnow payload w = (Raise (Unhandled OverflowError), w)
  ∧ http_status (Unhandled OverflowError) = 500.
Proof.
  intros Hres Hover. split; [|done].
  apply (create_cert_overflow _ _ _ _ days); [done|].
  unfold expiry, timedelta_days, datetime_add, mbind, result_bind.
  destruct (Z.abs days <=? 999999999); [|done].
  destruct (Z.ltb_spec (utcnow + days * day_us) (MAXORDINAL * day_us));
    [lia|]. by rewrite andb_false_r.
Qed.

Lemma create_cert_expiry_out_of_range_witness :
  resolve_validity_days (sample_payload "custom" (Some 4000000)) = Ok 4000000
  ∧ MAXORDINAL * day_us ≤ sample_now + 4000000 * day_us
  ∧ create_cert signing_ca sample_now (sample_payload "custom" (Some 4000000))
      empty_world
    = (Raise (Unhandled OverflowError), empty_world).
Proof.
  assert (Hres : resolve_validity_days (sample_payload "custom" (Some 4000000))
                 = Ok 4000000) by reflexivity.
  assert (Hover : MAXORDINAL * day_us ≤ sample_now + 4000000 * day_us)
    by (vm_compute; discriminate).
  split; [exact Hres|]. split; [exact Hover|].
  exact (proj1 (create_cert_expiry_out_of_range signing_ca sample_now _
                  empty_world _ Hres Hover)).
Defined.

(** ** The request that is posted *)

Lemma set_if_lookup (k : string) (value : option string)
    (entry : gmap string string) (j : string) :
  set_if k value entry !! j
  = match supplied value with
    | Some v => if decide (k = j) then Some v else entry !! j
    | None => entry !! j
    end.
Proof.
  unfold set_if, supplied, truthy_str. destruct value as [v|]; [|done].
  destruct (decide (v = "")) as [->|Hv]; [done|].
  rewrite bool_decide_eq_true_2 by done. by rewrite lookup_insert.
Qed.

Lemma request_names (payload : CertCreate.t) :
  (build_cfssl_request payload).(request).(names)
  = if decide (name_entry payload = ∅) then None
    else Some [name_entry payload].
Proof.
  unfold build_cfssl_request. fold (name_entry payload). simpl.
  by destruct (decide (name_entry payload = ∅)).
Qed.

Lemma name_entry_lookup (payload : CertCreate.t) (k : string) :
  name_entry payload !! k
  = if decide (k = "OU") then supplied payload.(CertCreate.organizational_unit)
    else if decide (k = "O") then supplied payload.(CertCreate.organization)
    else if decide (k = "L") then supplied payload.(CertCreate.locality)
    else if decide (k = "ST") then supplied payload.(CertCreate.province)
    else if decide (k = "C") then supplied payload.(CertCreate.country)
    else None.
Proof.
  unfold name_entry. rewrite !set_if_lookup, lookup_empty.
  repeat case_decide; subst; try done;
    by repeat (destruct (supplied _)).
Qed.

(** X6. The distinguished name of the request holds exactly the fields
    that were supplied, a field that is absent or empty being left out:
    [C], [ST], [L], [O] and [OU] map to country, province, locality,
    organization and organizational unit, and there is no other key.
    [names] is that one entry, and it is missing from the request exactly
    when no field was supplied.  The profile is sent only if it is not
    empty. *)
Theorem cfssl_request_optional_parts (payload : CertCreate.t) :
  let req := build_cfssl_request payload in
  let entry := name_entry payload in
  entry !! "C" = supplied payload.(CertCreate.country)
  ∧ entry !! "ST" = supplied payload.(CertCreate.province)
  ∧ entry !! "L" = supplied payload.(CertCreate.locality)
  ∧ entry !! "O" = supplied payload.(CertCreate.organization)
  ∧ entry !! "OU" = supplied payload.(CertCreate.organizational_unit)
  ∧ (∀ k, k ∉ ["C"; "ST"; "L"; "O"; "OU"] → entry !! k = None)
  ∧ (∀ k v, entry !! k = Some v → v ≠ "")
  ∧ (req.(request).(names) = None
     ↔ supplied payload.(CertCreate.country) = None
       ∧ supplied payload.(CertCreate.province) = None
       ∧ supplied payload.(CertCreate.locality) = None
       ∧ supplied payload.(CertCreate.organization) = None
       ∧ supplied payload.(CertCreate.organizational_unit) = None)
  ∧ (req.(request).(names) ≠ None → req.(request).(names) = Some [entry])
  ∧ req.(request_profile) = supplied payload.(CertCreate.profile).
Proof.
  intros req entry. subst req entry.
  assert (Hsup : ∀ value v, supplied value = Some v → v ≠ "").
  { intros [x|] v; unfold supplied, truthy_str; [|done].
    destruct (decide (x = "")) as [->|Hx]; [done|].
    rewrite bool_decide_eq_true_2 by done. by intros [= <-]. }
  assert (Hc : name_entry payload !! "C"
               = supplied payload.(CertCreate.country))
    by (by rewrite name_entry_lookup).
  assert (Hst : name_entry payload !! "ST"
                = supplied payload.(CertCreate.province))
    by (by rewrite name_entry_lookup).
  assert (Hl : name_entry payload !! "L"
               = supplied payload.(CertCreate.locality))
    by (by rewrite name_entry_lookup).
  assert (Ho : name_entry payload !! "O"
               = supplied payload.(CertCreate.organization))
    by (by rewrite name_entry_lookup).
  assert (Hou : name_entry payload !! "OU"
                = supplied payload.(CertCreate.organizational_unit))
    by (by rewrite name_entry_lookup).
  do 5 (split; [done|]).
  split; [|split; [|split; [|split]]].
  - intros k Hk. rewrite name_entry_lookup.
    repeat case_decide; subst; try done; exfalso; apply Hk;
      repeat (first [apply list_elem_of_here|apply list_elem_of_further]).
  - intros k v. rewrite name_entry_lookup.
    repeat case_decide; try done; apply Hsup.
  - rewrite request_names. split.
    + destruct (decide (name_entry payload = ∅)) as [He|]; [|done].
      intros _. rewrite <- Hc, <- Hst, <- Hl, <- Ho, <- Hou, He.
      by rewrite !lookup_empty.
    + intros (Ec & Est & El & Eo & Eou).
      rewrite decide_True; [done|].
      apply map_empty. intros k. rewrite name_entry_lookup.
      by repeat case_decide.
  - rewrite request_names. by destruct (decide (name_entry payload = ∅)).
  - unfold build_cfssl_request, supplied. simpl. done.
Qed.

Lemma cfssl_request_optional_parts_witness :
  let payload := sample_payload "1y" None in
  (build_cfssl_request payload).(request).(names) = Some [{[ "C" := "CN" ]}]
  ∧ (build_cfssl_request payload).(request_profile) = Some "server".
Proof.
  intros payload.
  destruct (cfssl_request_optional_parts payload)
    as (_ & _ & _ & _ & _ & _ & _ & _ & Hnames & Hprofile).
  split; [|exact Hprofile].
  assert (Hentry : name_entry payload = {[ "C" := "CN" ]}) by reflexivity.
  rewrite <- Hentry. apply Hnames. by vm_compute.
Defined.

(** ** Downloads: what fails, and what a download of a new record holds *)


Section PKCS12_failures.
Variables Certificate PrivateKey : Type.
Variable load_pem_x509_certificate : list Byte.byte → option Certificate.
Variable load_pem_private_key :
  list Byte.byte → option (list Byte.byte) → option PrivateKey.
Variable serialize_key_and_certificates :
  option (list Byte.byte) → PrivateKey → Certificate →
  option (list Certificate) → KeySerializationEncryption →
  option (list Byte.byte).

Local Abbreviation p12' :=
  (download_p12 Certificate PrivateKey load_pem_x509_certificate
     load_pem_private_key serialize_key_and_certificates).


End PKCS12_failures.

(** X9. Creating a record and downloading it: the bundle of the new id
    is the certificate and the private key that the CA answered, each
    followed by a line feed, under the file name made of the new id and
    the common name of the request. *)
Theorem create_then_download_pem cfssl utcnow payload w response w' :
  create_cert cfssl utcnow payload w = (Ok response, w') →
  let record := response.(CertCreateResponse.base) in
  ca_signed (cfssl (build_cfssl_request payload))
    record.(CertOut.certificate_pem)
    response.(CertCreateResponse.private_key_pem)
    record.(CertOut.serial_number)
  ∧ download_pem record.(CertOut.id) w'
    = Ok {| body := encode_utf8 record.(CertOut.certificate_pem) ++ [Byte.x0a]
                    ++ encode_utf8 response.(CertCreateResponse.private_key_pem)
                    ++ [Byte.x0a];
            media_type := "application/x-pem-file";
            content_disposition :=
              "attachment; filename=" +:+
              download_filename record.(CertOut.id)
                payload.(CertCreate.cn) ".pem" |}.
Proof.
  intros Hrun.
  apply create_cert_inv in Hrun
    as [(e & [=] & _)|(days & expires & cert & key & serial
                       & _ & _ & Hsigned & [= ->] & ->)].
  simpl. split; [done|].
  unfold download_pem, _get_certificate_row. simpl.
  rewrite lookup_insert_eq. simpl. unfold mret, result_ret.
  by rewrite !encode_utf8_app.
Qed.

Lemma create_then_download_pem_witness :
  ∃ response w',
    create_cert signing_ca sample_now (sample_payload "3y" None) sample_world
    = (Ok response, w')
    ∧ ∃ file, download_pem 3 w' = Ok file
              ∧ file.(body) = encode_utf8 "CERT" ++ [Byte.x0a]
                              ++ encode_utf8 "KEY" ++ [Byte.x0a]
              ∧ file.(content_disposition)
                = "attachment; filename=cert_3_www_example_org.pem".
Proof.
  pose (payload := sample_payload "3y" None).
  pose (expires := sample_now + 1095 * day_us).
  pose (response := created_response 3 payload sample_now expires 1095
                      "CERT" "KEY" (Some "42")).
  pose (row := certificate_row payload sample_now expires 1095
                 "CERT" "KEY" (Some "42")).
  assert (Hrun : create_cert signing_ca sample_now payload sample_world
                 = (Ok response, after_insert payload row sample_world))
    by (vm_compute; reflexivity).
  exists response, (after_insert payload row sample_world).
  split; [exact Hrun|].
  destruct (create_then_download_pem _ _ _ _ _ _ Hrun) as [_ Hfile].
  eexists. split; [exact Hfile|]. split; reflexivity.
Defined.

(** ** The table only grows *)

Lemma max_rowid_sequence (w : World) : w.(sqlite_sequence) ≤ max_rowid w.
Proof.
  unfold max_rowid.
  apply (map_fold_weak_ind
           (λ r (m : gmap Z CertRow.t), w.(sqlite_sequence) ≤ r)); [done|].
  intros i x m r _ IH. lia.
Qed.

(** X10. [create_cert] never changes or removes a row: every row of the
    table is there afterwards, under its id and as it was, so that a
    download that was answered is answered alike; the counter of row ids
    does not go down and the requests posted before stay. *)
Theorem create_cert_keeps_rows cfssl utcnow payload w r w' :
  create_cert cfssl utcnow payload w = (r, w') →
  (∀ id row, w.(certificates) !! id = Some row
             → w'.(certificates) !! id = Some row)
  ∧ (∀ id file, download_pem id w = Ok file → download_pem id w' = Ok file)
  ∧ w.(sqlite_sequence) ≤ w'.(sqlite_sequence)
  ∧ w.(posted) `prefix_of` w'.(posted).
Proof.
  intros Hrun.
  assert (Hrows : ∀ id row, w.(certificates) !! id = Some row
                            → w'.(certificates) !! id = Some row).
  { apply create_cert_inv in Hrun
      as [(e & _ & [-> | ->])
         |(days & expires & cert & key & serial & _ & _ & _ & _ & ->)];
      [done..|].
    intros id row Hrow. simpl. rewrite lookup_insert_ne; [done|].
    intros <-. by rewrite fresh_rowid in Hrow. }
  split; [done|]. split.
  { intros id file. unfold download_pem, _get_certificate_row.
    destruct (certificates w !! id) as [row|] eqn:Hrow; [|done].
    by rewrite (Hrows _ _ Hrow). }
  apply create_cert_inv in Hrun
    as [(e & _ & [-> | ->])
       |(days & expires & cert & key & serial & _ & _ & _ & _ & ->)]; simpl.
  - done.
  - split; [done|]. by apply prefix_app_r.
  - pose proof (max_rowid_sequence w). split; [lia|]. by apply prefix_app_r.
Qed.

Lemma create_cert_keeps_rows_witness :
  ∃ file,
    download_pem 1 sample_world = Ok file
    ∧ download_pem 1
        (create_cert signing_ca sample_now (sample_payload "3y" None)
           sample_world).2
      = Ok file.
Proof.
  destruct (create_cert_keeps_rows signing_ca sample_now
              (sample_payload "3y" None) sample_world _ _ eq_refl)
    as (_ & Hfile & _).
  assert (H : ∃ file, download_pem 1 sample_world = Ok file)
    by (eexists; vm_compute; reflexivity).
  destruct H as [file H]. exists file. split; [exact H|exact (Hfile 1 file H)].
Defined.

(** ** The ids that the service assigns *)

Lemma max_rowid_attained (w : World) :
  max_rowid w = w.(sqlite_sequence) ∨ is_Some (w.(certificates) !! max_rowid w).
Proof.
  unfold max_rowid.
  apply (map_fold_weak_ind
           (λ r (m : gmap Z CertRow.t),
              r = w.(sqlite_sequence) ∨ is_Some (m !! r))); [by left|].
  intros i x m r Hi IH.
  destruct (Z.max_spec i r) as [[Hlt ->]|[Hle ->]].
  - destruct IH as [IH|IH]; [by left|right].
    rewrite lookup_insert_ne; [done|]. intros ->. lia.
  - right. by rewrite lookup_insert_eq.
Qed.

(** The ids of a state that the service produces are 1, 2, ... up to the
    counter. *)
Lemma reachable_ids_dense (w : World) :
  reachable w →
  0 ≤ w.(sqlite_sequence)
  ∧ ∀ id, is_Some (w.(certificates) !! id) ↔ 1 ≤ id ≤ w.(sqlite_sequence).
Proof.
  induction 1 as [|cfssl utcnow payload w Hw [IH0 IH]].
  - simpl. split; [done|]. intros id. rewrite lookup_empty.
    split; [by intros [? ?]|lia].
  - destruct (create_cert cfssl utcnow payload w) as [r w'] eqn:Hrun. simpl.
    assert (Hmax : max_rowid w = w.(sqlite_sequence)).
    { destruct (max_rowid_attained w) as [|Hin]; [done|].
      apply IH in Hin. pose proof (max_rowid_sequence w). lia. }
    apply create_cert_inv in Hrun
      as [(e & _ & [-> | ->])
         |(days & expires & cert & key & serial & _ & _ & _ & _ & ->)];
      [done..|].
    simpl. rewrite Hmax. split; [lia|]. intros id.
    rewrite lookup_insert. case_decide as Hid.
    + subst. split; [lia|by eexists].
    + rewrite IH. lia.
Qed.

(** X11. In every state that the service produces, the ids of the table
    are exactly 1 to n, where n is both the counter of row ids and the
    number of rows; the next record gets the id n + 1. *)
Theorem reachable_ids_consecutive (w : World) :
  reachable w →
  (∀ id, is_Some (w.(certificates) !! id) ↔ 1 ≤ id ≤ w.(sqlite_sequence))
  ∧ Z.of_nat (size w.(certificates)) = w.(sqlite_sequence)
  ∧ ∀ cfssl utcnow payload response w',
      create_cert cfssl utcnow payload w = (Ok response, w') →
      response.(CertCreateResponse.base).(CertOut.id)
      = Z.of_nat (size w.(certificates)) + 1.
Proof.
  intros Hw.
  assert (Hsize : Z.of_nat (size w.(certificates)) = w.(sqlite_sequence)).
  { induction Hw as [|cfssl utcnow payload w Hw IH]; [done|].
    destruct (reachable_ids_dense w Hw) as [H0 Hdense].
    destruct (create_cert cfssl utcnow payload w) as [r w'] eqn:Hrun. simpl.
    assert (Hmax : max_rowid w = w.(sqlite_sequence)).
    { destruct (max_rowid_attained w) as [|Hin]; [done|].
      apply Hdense in Hin. pose proof (max_rowid_sequence w). lia. }
    apply create_cert_inv in Hrun
      as [(e & _ & [-> | ->])
         |(days & expires & cert & key & serial & _ & _ & _ & _ & ->)];
      [done..|].
    simpl. rewrite map_size_insert_None by apply fresh_rowid. lia. }
  destruct (reachable_ids_dense w Hw) as [H0 Hdense].
  split; [done|]. split; [done|].
  intros cfssl utcnow payload response w' Hrun.
  apply create_cert_inv in Hrun
    as [(e & [=] & _)
       |(days & expires & cert & key & serial & _ & _ & _ & [= ->] & _)].
  simpl. rewrite Hsize.
  destruct (max_rowid_attained w) as [->|Hin]; [done|].
  apply Hdense in Hin. pose proof (max_rowid_sequence w). lia.
Qed.

Lemma reachable_ids_consecutive_witness :
  size sample_world.(certificates) = 2%nat
  ∧ (∀ id, is_Some (sample_world.(certificates) !! id) ↔ 1 ≤ id ≤ 2).
Proof.
  destruct (reachable_ids_consecutive sample_world sample_world_reachable)
    as (Hids & Hsize & _).
  split; [by vm_compute|]. exact Hids.
Defined.

(** ** Creating and listing *)




(** ** Listing a table with a row that does not parse *)






(** ** Start-up *)

(** X14. [init_db] leaves a [certificates] table that has the column
    [validity_days], from whatever file it starts.  On a new file the
    table has the columns of the [CREATE TABLE] statement and that one,
    and no row.  On a file with the table, every row and the counter of
    row ids are kept and the columns that were there stay, in their
    order; a table that has the column already is not changed at all (the
    error of the second [ADD COLUMN] is passed over).  Running [init_db]
    again changes nothing. *)
Theorem init_db_migrates (db : Database) :
  ∃ table,
    init_db db = Some table
    ∧ "validity_days" ∈ table.(table_columns)
    ∧ (db = None
       → table = {| table_columns := created_columns ++ ["validity_days"];
                    table_rows := ∅;
                    table_sequence := 0 |})
    ∧ (∀ old, db = Some old
              → table.(table_rows) = old.(table_rows)
                ∧ table.(table_sequence) = old.(table_sequence)
                ∧ old.(table_columns) `prefix_of` table.(table_columns)
                ∧ ("validity_days" ∈ old.(table_columns) → table = old))
    ∧ init_db (init_db db) = init_db db.
Proof.
  destruct db as [old|].
  - unfold init_db. simpl.
    destruct (decide ("validity_days" ∈ table_columns old)) as [Hin|Hnot].
    + exists old. split; [done|]. split; [done|]. split; [done|]. split.
      * intros ? [= <-]. by repeat split.
      * simpl. by rewrite decide_True.
    + eexists. split; [done|]. simpl. split.
      { apply elem_of_app. right. apply list_elem_of_here. }
      split; [done|]. split.
      * intros ? [= <-]. simpl. split; [done|]. split; [done|].
        split; [by apply prefix_app_r|done].
      * rewrite decide_True; [done|].
        apply elem_of_app. right. apply list_elem_of_here.
  - eexists. split; [reflexivity|]. split; [|split; [done|split; [done|]]].
    + compute_done.
    + reflexivity.
Qed.

(** ** The CORS origins *)

Lemma split_nonempty (sep : ascii) (s : string) : split sep s ≠ [].
Proof.
  destruct s as [|c s]; simpl; [done|].
  destruct (Ascii.eqb c sep); [done|]. by destruct (split sep s).
Qed.

Lemma join_cons (sep x : string) (xs : list string) :
  xs ≠ [] → join sep (x :: xs) = x +:+ sep +:+ join sep xs.
Proof. by destruct xs. Qed.

Lemma join_split (sep : ascii) (s : string) :
  join (String sep "") (split sep s) = s.
Proof.
  induction s as [|c s IH]; [done|]. simpl.
  destruct (Ascii.eqb_spec c sep) as [->|Hc].
  - rewrite join_cons by apply split_nonempty. by rewrite IH.
  - destruct (split sep s) as [|x xs] eqn:Hs; [by destruct (split_nonempty sep s)|].
    destruct xs as [|y ys].
    + simpl in *. by rewrite IH.
    + rewrite join_cons by done. rewrite join_cons in IH by done.
      by rewrite string_app_cons, IH.
Qed.

Lemma split_no_separator (sep : ascii) (s x : string) (i : nat) :
  x ∈ split sep s → String.get i x ≠ Some sep.
Proof.
  revert x i. induction s as [|c s IH]; intros x i; simpl.
  - intros ->%list_elem_of_singleton. by destruct i.
  - destruct (Ascii.eqb_spec c sep) as [->|Hc].
    + intros [->|Hin]%elem_of_cons; [by destruct i|by apply IH].
    + destruct (split sep s) as [|y ys] eqn:Hs.
      * intros ->%list_elem_of_singleton. destruct i as [|[|i]]; simpl; congruence.
      * intros [->|Hin]%elem_of_cons.
        -- destruct i as [|i]; simpl; [congruence|].
           apply IH, list_elem_of_here.
        -- by apply IH, list_elem_of_further.
Qed.

(** X15. The allowed CORS origins are the pieces of the configured text
    between its commas, taken as they are (nothing is trimmed): there is
    at least one, none holds a comma, and joined by commas they give the
    text back.  Without the variable the list is the single origin [*];
    with an empty value it is the single empty origin. *)
Theorem allow_origins_split (CORS_ALLOW_ORIGINS : option string) :
  let origins := allow_origins CORS_ALLOW_ORIGINS in
  join "," origins = default "*" CORS_ALLOW_ORIGINS
  ∧ origins ≠ []
  ∧ (∀ origin i, origin ∈ origins → String.get i origin ≠ Some ","%char)
  ∧ allow_origins None = ["*"]
  ∧ allow_origins (Some "") = [""].
Proof.
  intros origins. subst origins. unfold allow_origins.
  split; [apply (join_split ",")|]. split; [apply split_nonempty|].
  split; [|by split].
  intros origin i Hin. by eapply split_no_separator.
Qed.

(** ** The text of the stored names *)

Lemma all_chars_app (P : ascii → Prop) (s1 s2 : string) :
  all_chars P s1 → all_chars P s2 → all_chars P (s1 +:+ s2).
Proof.
  intros H1 H2. induction s1 as [|c s1 IH]; [done|].
  rewrite string_app_cons. destruct H1 as [Hc H1]. split; [done|by apply IH].
Qed.

Lemma escape_char_printable (c : ascii) :
  all_chars printable (json.escape_char c).
Proof.
  destruct c as [[] [] [] [] [] [] [] []]; vm_compute;
    repeat split; discriminate.
Qed.

Lemma escape_printable (s : string) : all_chars printable (json.escape s).
Proof.
  induction s as [|c s IH]; [done|]. simpl.
  apply all_chars_app; [apply escape_char_printable|done].
Qed.

Lemma encode_basestring_printable (s : string) :
  all_chars printable (json.encode_basestring_ascii s).
Proof.
  unfold json.encode_basestring_ascii. split; [by vm_compute|].
  apply all_chars_app; [apply escape_printable|].
  split; [by vm_compute|done].
Qed.

Lemma join_printable (sep : string) (items : list string) :
  all_chars printable sep →
  Forall (all_chars printable) items →
  all_chars printable (join sep items).
Proof.
  intros Hsep. induction 1 as [|x xs Hx Hxs IH]; [done|].
  destruct xs as [|y ys]; [done|].
  rewrite join_cons by done.
  apply all_chars_app; [done|]. by apply all_chars_app.
Qed.

(** X16. The [sans] text that is stored is plain printable ASCII, whatever
    characters the names hold: every character of [json.dumps] of a list
    of names lies between the space and the tilde, and so does the [sans]
    column of every row in a state that the service produces. *)
Theorem stored_sans_printable :
  (∀ items, all_chars printable (json.dumps items))
  ∧ (∀ w, reachable w →
          ∀ id row, w.(certificates) !! id = Some row →
                    all_chars printable row.(CertRow.sans)).
Proof.
  assert (H : ∀ items, all_chars printable (json.dumps items)).
  { intros items. unfold json.dumps.
    apply (all_chars_app _ "["); [by vm_compute|].
    apply all_chars_app; [|by vm_compute].
    apply join_printable; [by vm_compute|].
    apply Forall_fmap, Forall_forall. intros x _.
    apply encode_basestring_printable. }
  split; [done|]. intros w Hw id row Hrow.
  destruct (reachable_rows w Hw id row Hrow). simpl. apply H.
Qed.
